(** * hep: basket reader, byte cursor, key directory, Arrow table and
      histogram service

    A shallow embedding of the parts of go-hep that the specification
    talks about:

    - [rtree]: the reader-side basket ([rbasket.loadRLeaf],
      [rbasket.inflate]);
    - [rbytes]: the byte cursor the basket reader drives;
    - [riofs]: the key directory of a file ([Put], [Get], [Keys], [Close],
      [Open]);
    - [rarrow]: the reference-counted Arrow table ([Retain], [Release]);
    - [hbooksvc]: the histogram booking service ([BookH1D] and friends).

    Go's [int], [int32] and [int64] are integers of [Z] with the
    wrap-around written out; byte slices are [list byte]; Go maps are
    [gmap]; a Go panic is the [Panic] outcome of [res]. *)

From Stdlib Require Import ZArith Lia.
From Stdlib.Strings Require Import Byte.
From stdpp Require Import base list strings gmap.

Set Default Proof Using "Type".
Local Open Scope Z_scope.

(** ** Outcomes: values, panics and errors *)

(** A call either returns or panics (slice bound, nil receiver, explicit
    [panic]).  Go's [error] results are [option error] inside [Ret]. *)
Inductive res (A : Type) : Type :=
| Ret (a : A)
| Panic (why : string).
Arguments Ret {A} a.
Arguments Panic {A} why.

#[global] Instance res_ret : MRet res := fun _ a => Ret a.
#[global] Instance res_bind : MBind res := fun _ _ k m =>
  match m with
  | Ret a => k a
  | Panic why => Panic why
  end.

(** The error taxonomy of the specification (section 7); [Wrapped] is
    [fmt.Errorf("...: %w", err)]. *)
Inductive error : Type :=
| NotFound
| InvalidDirectory
| CorruptBlock
| CorruptBasket
| UnknownClass
| UnknownVersion
| IOError
| ClosedHandle
| Wrapped (msg : string) (cause : error).

(** ** Go integers *)

Module goint.

(** The signed [w]-bit integer that the mathematical integer [x] wraps to. *)
Definition wrap (w : Z) (x : Z) : Z :=
  (x + 2 ^ (w - 1)) mod 2 ^ w - 2 ^ (w - 1).

Definition int32 (x : Z) : Z := wrap 32 x.
Definition int64 (x : Z) : Z := wrap 64 x.
Definition uint32 (x : Z) : Z := x mod 2 ^ 32.

Definition max_int64 : Z := 2 ^ 63 - 1.
Definition min_int64 : Z := - 2 ^ 63.
Definition in_int64 (x : Z) : Prop := min_int64 <= x <= max_int64.
Definition in_int32 (x : Z) : Prop := - 2 ^ 31 <= x < 2 ^ 31.

End goint.

(** ** rbytes: the byte cursor *)

Module rbytes.

(** Modelled from the spec: package [rbytes] is not among the sources.
    Section 4.1: a buffer with a read position; typed big-endian decode
    operations advance the position; once an operation fails the cursor
    keeps its first error and every later decode operation does nothing
    and returns a zero value; [SetPos]/[Pos] seek freely.  [offset] is the
    length of the key header that precedes the payload: positions are
    counted from the start of the key. *)
Record RBuffer : Type := mkRBuffer {
  p : list byte;        (* the data to read from *)
  c : Z;                (* current index into [p] *)
  offset : Z;           (* key-header length *)
  err : option error    (* sticky error *)
}.

Definition NewRBuffer (data : list byte) (hdr : Z) : RBuffer :=
  mkRBuffer data 0 hdr None.

(** [r.Reset(p, nil, hdr, sictx)]: a nil receiver allocates. *)
Definition Reset (r : option RBuffer) (data : list byte) (hdr : Z) : RBuffer :=
  NewRBuffer data hdr.

Definition Pos (r : RBuffer) : Z := c r + offset r.

Definition SetPos (r : RBuffer) (pos : Z) : RBuffer :=
  mkRBuffer (p r) (pos - offset r) (offset r) (err r).

Definition Err (r : RBuffer) : option error := err r.

Definition fail (e : error) (r : RBuffer) : RBuffer :=
  mkRBuffer (p r) (c r) (offset r) (Some e).

Definition advance (n : Z) (r : RBuffer) : RBuffer :=
  mkRBuffer (p r) (c r + n) (offset r) (err r).

(** The big-endian unsigned value of a byte string. *)
Definition be_uint (bs : list byte) : Z :=
  fold_left (fun acc b => acc * 256 + Z.of_N (Byte.to_N b)) bs 0.

(** The [n] bytes under the cursor, when the buffer holds them. *)
Definition fetch (n : nat) (r : RBuffer) : option (list byte) :=
  if decide (0 <= c r ∧ c r + Z.of_nat n <= Z.of_nat (length (p r)))
  then Some (take n (drop (Z.to_nat (c r)) (p r)))
  else None.

(** One fixed-width read: sticky, failing with [IOError] past the end. *)
Definition read_be (n : nat) (r : RBuffer) : RBuffer * Z :=
  match err r with
  | Some _ => (r, 0)
  | None =>
      match fetch n r with
      | Some bs => (advance (Z.of_nat n) r, be_uint bs)
      | None => (fail IOError r, 0)
      end
  end.

Definition signed (w : Z) (rv : RBuffer * Z) : RBuffer * Z :=
  (rv.1, goint.wrap w rv.2).

Definition ReadU8 (r : RBuffer) : RBuffer * Z := read_be 1 r.
Definition ReadI8 (r : RBuffer) : RBuffer * Z := signed 8 (read_be 1 r).
Definition ReadU16 (r : RBuffer) : RBuffer * Z := read_be 2 r.
Definition ReadI16 (r : RBuffer) : RBuffer * Z := signed 16 (read_be 2 r).
Definition ReadU32 (r : RBuffer) : RBuffer * Z := read_be 4 r.
Definition ReadI32 (r : RBuffer) : RBuffer * Z := signed 32 (read_be 4 r).
Definition ReadU64 (r : RBuffer) : RBuffer * Z := read_be 8 r.
Definition ReadI64 (r : RBuffer) : RBuffer * Z := signed 64 (read_be 8 r).
(** IEEE floats are returned as their bit patterns. *)
Definition ReadF32 (r : RBuffer) : RBuffer * Z := read_be 4 r.
Definition ReadF64 (r : RBuffer) : RBuffer * Z := read_be 8 r.

Definition ReadBool (r : RBuffer) : RBuffer * bool :=
  let '(r1, v) := read_be 1 r in (r1, negb (v =? 0)).

(** A length-prefixed string: one length byte, 255 announcing a 4-byte
    length. *)
Definition ReadString (r : RBuffer) : RBuffer * list byte :=
  match err r with
  | Some _ => (r, [])
  | None =>
      let '(r1, n8) := ReadU8 r in
      let '(r2, n) := if n8 =? 255 then ReadU32 r1 else (r1, n8) in
      match err r2 with
      | Some _ => (r2, [])
      | None =>
          match fetch (Z.to_nat n) r2 with
          | Some bs => (advance n r2, bs)
          | None => (fail IOError r2, [])
          end
      end
  end.

(** [for i := range arr { arr[i] = r.ReadI32() }] *)
Fixpoint read_i32s (r : RBuffer) (n : nat) : RBuffer * list Z :=
  match n with
  | O => (r, [])
  | S k =>
      let '(r1, v) := ReadI32 r in
      let '(r2, vs) := read_i32s r1 k in
      (r2, v :: vs)
  end.

(** The [n] big-endian [int32] that a byte string starts with. *)
Fixpoint be_int32s (n : nat) (bs : list byte) : list Z :=
  match n with
  | O => []
  | S k => goint.int32 (be_uint (take 4 bs)) :: be_int32s k (drop 4 bs)
  end.

(** Fills the slice it is given; a cursor in error leaves it alone. *)
Definition ReadArrayI32 (r : RBuffer) (arr : list Z) : RBuffer * list Z :=
  match err r with
  | Some _ => (r, arr)
  | None => read_i32s r (length arr)
  end.

(** [ResizeU8(sli, n)] and [ResizeI32(sli, n)]: the slice cut or
    zero-extended to [n] elements; a negative [n] is a slice bound out of
    range. *)
Definition resize {A} (zero : A) (sli : list A) (n : Z) : res (list A) :=
  if decide (n < 0) then Panic "slice bounds out of range"
  else Ret (take (Z.to_nat n) (sli ++ replicate (Z.to_nat n - length sli) zero)).

Definition ResizeU8 (sli : list byte) (n : Z) : res (list byte) :=
  resize Byte.x00 sli n.
Definition ResizeI32 (sli : list Z) (n : Z) : res (list Z) :=
  resize 0 sli n.

(** The decode operations as data, to speak of call chains. *)
Inductive decode_op : Type :=
| RdU8 | RdI8 | RdU16 | RdI16 | RdU32 | RdI32 | RdU64 | RdI64
| RdF32 | RdF64 | RdBool | RdString
| RdArrayI32 (arr : list Z).

Inductive value : Type :=
| VInt (z : Z)
| VBool (b : bool)
| VStr (s : list byte)
| VArr (a : list Z).

Definition zero_value (op : decode_op) : value :=
  match op with
  | RdBool => VBool false
  | RdString => VStr []
  | RdArrayI32 arr => VArr arr
  | _ => VInt 0
  end.

Definition with_value {A} (f : A -> value) (rv : RBuffer * A) : RBuffer * value :=
  (rv.1, f rv.2).

Definition decode (op : decode_op) (r : RBuffer) : RBuffer * value :=
  match op with
  | RdU8 => with_value VInt (ReadU8 r)
  | RdI8 => with_value VInt (ReadI8 r)
  | RdU16 => with_value VInt (ReadU16 r)
  | RdI16 => with_value VInt (ReadI16 r)
  | RdU32 => with_value VInt (ReadU32 r)
  | RdI32 => with_value VInt (ReadI32 r)
  | RdU64 => with_value VInt (ReadU64 r)
  | RdI64 => with_value VInt (ReadI64 r)
  | RdF32 => with_value VInt (ReadF32 r)
  | RdF64 => with_value VInt (ReadF64 r)
  | RdBool => with_value VBool (ReadBool r)
  | RdString => with_value VStr (ReadString r)
  | RdArrayI32 arr => with_value VArr (ReadArrayI32 r arr)
  end.

(** A call chain: the operations run one after the other on the same
    cursor, the results collected in order. *)
Fixpoint run (ops : list decode_op) (r : RBuffer) : RBuffer * list value :=
  match ops with
  | [] => (r, [])
  | op :: rest =>
      let '(r1, v) := decode op r in
      let '(r2, vs) := run rest r1 in
      (r2, v :: vs)
  end.

End rbytes.

(** ** rtree: the reader-side basket *)

Module rtree.

(** [Basket], as far as [rbasket] reaches into it.  [R] is the cursor type
    and [K] the key type of the packages it is built on. *)
Record Basket (R K : Type) : Type := mkBasket {
  key : K;              (* the basket's key *)
  nevsize : Z;          (* fixed length of each entry *)
  last : Z;             (* pointer to last used byte in basket *)
  offsets : list Z;     (* offsets of the entries, []int32 *)
  rbuf : R              (* read cursor, *rbytes.RBuffer *)
}.
Arguments mkBasket {R K}.
Arguments key {R K}.
Arguments nevsize {R K}.
Arguments last {R K}.
Arguments offsets {R K}.
Arguments rbuf {R K}.

(** What [rbasket] calls in packages [rbytes] and [riofs] and in the rest of
    [rtree], none of which is among the sources: taken as an interface.
    Every call may panic, hence [res]; values that Go updates in place
    (the cursor, the slice handed to [ReadAt], [Load] or [ReadArrayI32])
    are returned. *)
Class Deps : Type := {
  RBuffer : Type;       (* *rbytes.RBuffer, nil included *)
  File : Type;          (* *riofs.File *)
  Key : Type;           (* riofs.Key *)
  rb_Reset : RBuffer -> list byte -> Z -> res RBuffer;
  rb_SetPos : RBuffer -> Z -> res RBuffer;
  rb_ReadI32 : RBuffer -> res (RBuffer * Z);
  rb_ReadArrayI32 : RBuffer -> list Z -> res (RBuffer * list Z);
  rb_Err : RBuffer -> res (option error);
  ResizeU8 : list byte -> Z -> res (list byte);
  ResizeI32 : list Z -> Z -> res (list Z);
  ReadAt : File -> list byte -> Z -> res (list byte * option error);
  SetFile : Key -> File -> Key;
  KeyLen : Key -> Z;
  ObjLen : Key -> Z;
  Load : Key -> list byte -> res (list byte * option error);
  UnmarshalROOT : Basket RBuffer Key -> res (Basket RBuffer Key * option error)
}.

(** The leaves a basket is read into. *)
Class rleaf `{Deps} (L : Type) : Type := {
  Offset : L -> Z;
  readFromBuffer : L -> RBuffer -> res (L * RBuffer * option error)
}.

Section reader.
Context `{D : Deps}.

Definition basket : Type := Basket RBuffer Key.

(** The part of the file a basket occupies and the entries it holds. *)
Record rspan : Type := mkRspan {
  beg : Z;              (* first entry of the basket *)
  end_ : Z;             (* one past its last entry *)
  pos : Z;              (* location on disk *)
  sz : Z;               (* size on disk *)
  bkt : option basket   (* a recovered basket, already in memory *)
}.

Definition rspan_zero : rspan := mkRspan 0 0 0 0 None.

Definition entries (s : rspan) : Z := end_ s - beg s.

Record rbasket : Type := mkRbasket {
  id : Z;               (* basket number *)
  span : rspan;         (* basket entry span *)
  bk : basket;          (* current basket *)
  buf : list byte
}.

Definition set_id (v : Z) (rbk : rbasket) : rbasket :=
  mkRbasket v (span rbk) (bk rbk) (buf rbk).
Definition set_span (v : rspan) (rbk : rbasket) : rbasket :=
  mkRbasket (id rbk) v (bk rbk) (buf rbk).
Definition set_bk (v : basket) (rbk : rbasket) : rbasket :=
  mkRbasket (id rbk) (span rbk) v (buf rbk).
Definition set_buf (v : list byte) (rbk : rbasket) : rbasket :=
  mkRbasket (id rbk) (span rbk) (bk rbk) v.

Definition bk_set_key (v : Key) (b : basket) : basket :=
  mkBasket v (nevsize b) (last b) (offsets b) (rbuf b).
Definition bk_set_offsets (v : list Z) (b : basket) : basket :=
  mkBasket (key b) (nevsize b) (last b) v (rbuf b).
Definition bk_set_rbuf (v : RBuffer) (b : basket) : basket :=
  mkBasket (key b) (nevsize b) (last b) (offsets b) v.

Definition set_key (v : Key) (rbk : rbasket) : rbasket :=
  set_bk (bk_set_key v (bk rbk)) rbk.
Definition set_offsets (v : list Z) (rbk : rbasket) : rbasket :=
  set_bk (bk_set_offsets v (bk rbk)) rbk.
Definition set_rbuf (v : RBuffer) (rbk : rbasket) : rbasket :=
  set_bk (bk_set_rbuf v (bk rbk)) rbk.

Definition reset (rbk : rbasket) : rbasket :=
  set_span rspan_zero (set_id 0 rbk).

(** [sli[int(i)]] on a slice: out of range panics. *)
Definition index {A} (sli : list A) (i : Z) : res A :=
  if decide (i < 0) then Panic "index out of range"
  else match sli !! Z.to_nat i with
       | Some a => Ret a
       | None => Panic "index out of range"
       end.

(** The byte offset [loadRLeaf] seeks to. *)
Definition leaf_offset `{!rleaf L} (rbk : rbasket) (entry : Z) (leaf : L) : res Z :=
  if decide (length (offsets (bk rbk)) = 0%nat) then
    Ret (goint.int64
           (goint.int64 (goint.int64 (entry * goint.int64 (nevsize (bk rbk)))
                         + Offset leaf)
            + goint.int64 (KeyLen (key (bk rbk)))))
  else
    o ← index (offsets (bk rbk)) entry;
    Ret (goint.int64 (goint.int64 o + Offset leaf)).

Definition loadRLeaf `{!rleaf L} (rbk : rbasket) (entry : Z) (leaf : L)
  : res (rbasket * L * option error) :=
  offset ← leaf_offset rbk entry leaf;
  r ← rb_SetPos (rbuf (bk rbk)) offset;
  '(leaf', r', e) ← readFromBuffer leaf r;
  Ret (set_rbuf r' rbk, leaf', e).

(** The offsets table at the tail of an inflated basket (the [eoff > 0]
    block of [inflate]). *)
Definition read_offsets (rbk : rbasket) : res (rbasket * option error) :=
  let last := goint.int64 (last (bk rbk)) in
  r ← rb_SetPos (rbuf (bk rbk)) last;
  '(r, n) ← rb_ReadI32 r;
  let rbk := set_rbuf r rbk in
  offs ← ResizeI32 (offsets (bk rbk)) n;
  let rbk := set_offsets offs rbk in
  '(r, offs) ← rb_ReadArrayI32 (rbuf (bk rbk)) (offsets (bk rbk));
  let rbk := set_offsets offs (set_rbuf r rbk) in
  e ← rb_Err (rbuf (bk rbk));
  Ret (rbk, e).

Definition inflate (rbk : rbasket) (name : string) (id : Z) (span : rspan)
    (eoff : Z) (f : File) : res (rbasket * option error) :=
  let bufsz := sz span in
  let seek := pos span in
  let rbk := set_id id rbk in
  let rbk := set_span span rbk in
  (* handle recovered baskets. *)
  let rbk := match bkt span with
             | Some b => set_bk b rbk
             | None => rbk
             end in
  if decide (bufsz = 0) then
    let rbk := set_key (SetFile (key (bk rbk)) f) rbk in
    b ← ResizeU8 (buf rbk) (ObjLen (key (bk rbk)));
    let rbk := set_buf b rbk in
    '(b, err) ← Load (key (bk rbk)) (buf rbk);
    let rbk := set_buf b rbk in
    match err with
    | Some e => Ret (rbk, Some e)
    | None =>
        r ← rb_Reset (rbuf (bk rbk)) (buf rbk) 0;
        Ret (set_rbuf r rbk, None)
    end
  else
    b ← ResizeU8 (buf rbk) bufsz;
    let rbk := set_buf b rbk in
    '(b, err) ← ReadAt f (buf rbk) seek;
    let rbk := set_buf b rbk in
    match err with
    | Some e =>
        Ret (rbk, Some (Wrapped "rtree: could not read basket buffer from file" e))
    | None =>
        r ← rb_Reset (rbuf (bk rbk)) (buf rbk) 0;
        let rbk := set_rbuf r rbk in
        '(b, err) ← UnmarshalROOT (bk rbk);
        let rbk := set_bk b rbk in
        match err with
        | Some e =>
            Ret (rbk, Some (Wrapped "rtree: could not unmarshal basket buffer from file" e))
        | None =>
            let rbk := set_key (SetFile (key (bk rbk)) f) rbk in
            b ← ResizeU8 (buf rbk) (ObjLen (key (bk rbk)));
            let rbk := set_buf b rbk in
            '(b, err) ← Load (key (bk rbk)) (buf rbk);
            let rbk := set_buf b rbk in
            match err with
            | Some e => Ret (rbk, Some e)
            | None =>
                let keylen := goint.uint32 (KeyLen (key (bk rbk))) in
                r ← rb_Reset (rbuf (bk rbk)) (buf rbk) keylen;
                let rbk := set_rbuf r rbk in
                if decide (eoff > 0) then read_offsets rbk
                else Ret (rbk, None)
            end
        end
    end.

(** The basket [inflate] works on: the recovered one when the span brings
    it, the current one otherwise. *)
Definition incoming (rbk : rbasket) (span : rspan) : basket :=
  match bkt span with
  | Some b => b
  | None => bk rbk
  end.

(** Seek the basket's cursor to [off] and hand it to the leaf's decoder. *)
Definition seek_and_decode `{!rleaf L} (rbk : rbasket) (leaf : L) (off : Z)
  : res (rbasket * L * option error) :=
  r ← rb_SetPos (rbuf (bk rbk)) off;
  '(leaf', r', e) ← readFromBuffer leaf r;
  Ret (set_rbuf r' rbk, leaf', e).

(** [inflate] gets as far as loading the key of basket [b] into the
    buffer [into]: at once for a recovered basket, after reading and
    decoding the header for a basket on disk. *)
Inductive reaches_load (rbk : rbasket) (span0 : rspan) (f : File)
  : basket -> list byte -> Prop :=
| reach_recovered (b1 : list byte) :
    sz span0 = 0 ->
    ResizeU8 (buf rbk) (ObjLen (SetFile (key (incoming rbk span0)) f)) = Ret b1 ->
    reaches_load rbk span0 f (incoming rbk span0) b1
| reach_disk (b1 b2 b3 : list byte) (r1 : RBuffer) (bk1 : basket) :
    sz span0 <> 0 ->
    ResizeU8 (buf rbk) (sz span0) = Ret b1 ->
    ReadAt f b1 (pos span0) = Ret (b2, None) ->
    rb_Reset (rbuf (incoming rbk span0)) b2 0 = Ret r1 ->
    UnmarshalROOT (bk_set_rbuf r1 (incoming rbk span0)) = Ret (bk1, None) ->
    ResizeU8 b2 (ObjLen (SetFile (key bk1) f)) = Ret b3 ->
    reaches_load rbk span0 f bk1 b3.

(** The [rbasket] that [inflate] leaves of a basket read from the file,
    given the header [bk1] decoded from it, the payload [b4], and the
    offsets table [offs] and the cursor [r5] at the end. *)
Definition inflated (id0 : Z) (span0 : rspan) (f : File) (bk1 : basket)
    (b4 : list byte) (offs : list Z) (r5 : RBuffer) : rbasket :=
  mkRbasket id0 span0
    (mkBasket (SetFile (key bk1) f) (nevsize bk1) (last bk1) offs r5) b4.

End reader.

(** What is assumed of the slice helpers: [ResizeI32(sli, n)] has [n]
    elements, and [ReadArrayI32] fills a slice without resizing it. *)
Class DepsLaws `{D : Deps} : Prop := {
  ResizeI32_length : forall (sli arr : list Z) (n : Z),
    ResizeI32 sli n = Ret arr -> Z.of_nat (length arr) = n;
  ReadArrayI32_length : forall (r r' : RBuffer) (arr arr' : list Z),
    rb_ReadArrayI32 r arr = Ret (r', arr') -> length arr' = length arr
}.

Definition strictly_increasing (l : list Z) : Prop :=
  forall (i : nat) (a b : Z), l !! i = Some a -> l !! S i = Some b -> a < b.

End rtree.

(** ** riofs: keys, files and the key directory *)

Module riofs.

(** Modelled from the spec: package [riofs] is not among the sources
    (only [rootio_test.go], a client of it, is).  Section 3: a Key is a
    directory entry with name, class, cycle, seek pointer, key-header
    length and compressed/uncompressed lengths; its payload starts at
    [seek + keylen].  Timestamps are left out. *)
Record Key : Type := mkKey {
  name : string;
  class : string;
  cycle : Z;
  seek : Z;             (* where the key starts in the file *)
  keylen : Z;           (* key-header length *)
  clen : Z;             (* compressed length of the payload *)
  objlen : Z            (* uncompressed length of the payload *)
}.

(** Modelled from the spec: section 4.2, the Codec Layer as a pair of
    functions; decoding fails on a corrupt block. *)
Class Codec : Type := {
  compress : list byte -> list byte;
  decompress : list byte -> option (list byte)
}.

(** Modelled from the spec: section 4.4, the Streamer Registry; [marshal]
    and [unmarshal] miss on a class that is not registered.  [key_header]
    is the serialised key header, whose layout the spec leaves open. *)
Class Registry (Obj : Type) : Type := {
  class_of : Obj -> string;
  marshal : Obj -> option (list byte);
  unmarshal : string -> list byte -> option Obj;
  key_header : string -> string -> Z -> list byte
}.

(** The bytes [off, off + n) of a file, when it holds them (section 4.5:
    reads past end-of-file fail). *)
Definition slice (data : list byte) (off n : Z) : option (list byte) :=
  if decide (0 <= off ∧ 0 <= n ∧ off + n <= Z.of_nat (length data))
  then Some (take (Z.to_nat n) (drop (Z.to_nat off) data))
  else None.

(** Modelled from the spec: [f.ReadAt(buf, off)] fills [buf] or fails with
    [IOError]. *)
Definition ReadAt (data : list byte) (buf : list byte) (off : Z)
  : list byte * option error :=
  match slice data off (Z.of_nat (length buf)) with
  | Some bs => (bs, None)
  | None => (buf, Some IOError)
  end.

(** Modelled from the spec: [Key.Load] (sections 4.2, 4.5): read the
    compressed payload at [seek + keylen], decompress it, and compare the
    size with the declared uncompressed length; a mismatch is
    [CorruptBasket]. *)
Definition Load `{Codec} (k : Key) (data : list byte) (buf : list byte)
  : list byte * option error :=
  match slice data (seek k + keylen k) (clen k) with
  | None => (buf, Some IOError)
  | Some raw =>
      match decompress raw with
      | None => (buf, Some CorruptBlock)
      | Some payload =>
          if decide (Z.of_nat (length payload) = objlen k)
          then (payload, None)
          else (buf, Some CorruptBasket)
      end
  end.

Inductive mode : Type := ReadMode | WriteMode.

(** Modelled from the spec: section 3, a File owns its key index, its open
    mode and its write cursor (the end of [data]).  One flat directory;
    nested directories are left out. *)
Record File : Type := mkFile {
  path : string;
  fmode : mode;
  closed : bool;
  data : list byte;
  keys : list Key
}.

(** What a path holds: the bytes and the key index as last finalised by
    [Close]. *)
Record Image : Type := mkImage {
  img_data : list byte;
  img_keys : list Key
}.

Section directory.
Context {Obj : Type} `{C : Codec} `{R : Registry Obj}.

Definition Create (disk : gmap string Image) (pth : string)
  : gmap string Image * File :=
  (<[pth := mkImage [] []]> disk, mkFile pth WriteMode false [] []).

Definition Open (disk : gmap string Image) (pth : string) : error + File :=
  match disk !! pth with
  | None => inl IOError
  | Some img => inr (mkFile pth ReadMode false (img_data img) (img_keys img))
  end.

Definition Keys (f : File) : list Key := keys f.

(** The highest cycle among the keys called [n], 0 when there is none. *)
Definition max_cycle (n : string) (ks : list Key) : Z :=
  foldr (fun k m => if decide (name k = n) then Z.max (cycle k) m else m) 0 ks.

(** [Put]: section 4.3. *)
Definition Put (f : File) (n : string) (v : Obj) : error + File :=
  if closed f then inl ClosedHandle
  else match fmode f with
  | ReadMode => inl InvalidDirectory
  | WriteMode =>
      match marshal v with
      | None => inl UnknownClass
      | Some payload =>
          let block := compress payload in
          let cyc := 1 + max_cycle n (keys f) in
          let hdr := key_header n (class_of v) cyc in
          let k := mkKey n (class_of v) cyc
                     (Z.of_nat (length (data f)))
                     (Z.of_nat (length hdr))
                     (Z.of_nat (length block))
                     (Z.of_nat (length payload)) in
          inr (mkFile (path f) (fmode f) (closed f)
                 (data f ++ hdr ++ block) (keys f ++ [k]))
      end
  end.

(** The key [Get] resolves a name to: the given cycle, or the highest. *)
Definition find_key (n : string) (cyc : option Z) (ks : list Key) : option Key :=
  let c := match cyc with
           | Some c => c
           | None => max_cycle n ks
           end in
  find (fun k => bool_decide (name k = n ∧ cycle k = c)) ks.

(** [Get]: section 4.3. *)
Definition Get (f : File) (n : string) (cyc : option Z) : error + Obj :=
  if closed f then inl ClosedHandle
  else match find_key n cyc (keys f) with
  | None => inl NotFound
  | Some k =>
      match Load k (data f) [] with
      | (_, Some e) => inl e
      | (payload, None) =>
          match unmarshal (class k) payload with
          | None => inl UnknownClass
          | Some v => inr v
          end
      end
  end.

(** [Close]: the key index is written at close. *)
Definition Close (disk : gmap string Image) (f : File)
  : error + gmap string Image * File :=
  if closed f then inl ClosedHandle
  else
    let f' := mkFile (path f) (fmode f) true (data f) (keys f) in
    match fmode f with
    | ReadMode => inr (disk, f')
    | WriteMode => inr (<[path f := mkImage (data f) (keys f)]> disk, f')
    end.

(** A run of [Put]s, stopping at the first error. *)
Fixpoint PutAll (f : File) (ps : list (string * Obj)) : error + File :=
  match ps with
  | [] => inr f
  | (n, v) :: rest =>
      match Put f n v with
      | inl e => inl e
      | inr f' => PutAll f' rest
      end
  end.

(** The key [k] points at the stored form of [v] in [data]. *)
Definition stored (data : list byte) (k : Key) (v : Obj) : Prop :=
  exists payload : list byte,
    marshal v = Some payload
    /\ class k = class_of v
    /\ objlen k = Z.of_nat (length payload)
    /\ slice data (seek k + keylen k) (clen k) = Some (compress payload).

(** The keys of [f], in order, are those of the objects [ps], each at its
    first cycle and pointing at its stored form. *)
Definition holds (f : File) (ps : list (string * Obj)) : Prop :=
  Forall2 (fun k p => name k = p.1 /\ cycle k = 1 /\ stored (data f) k p.2)
    (keys f) ps.

End directory.

(** The store codec: blocks pass through. *)
Definition store_codec : Codec := {|
  compress := fun bs => bs;
  decompress := fun bs => Some bs
|}.

(** *** A small registry

    One class, "TObjString": an object is a string of bytes and is stored
    as it is; the key header is the name of the key. *)
Definition demo_registry : Registry (list byte) := {|
  class_of := fun _ => "TObjString";
  marshal := fun v => Some v;
  unmarshal := fun c payload =>
    if decide (c = "TObjString") then Some payload else None;
  key_header := fun n _ _ => String.list_byte_of_string n
|}.

Definition hello : list byte := [Byte.x68; Byte.x69].
Definition world : list byte := [Byte.x79; Byte.x6f].

(** A file after [Create], after one [Put] and after a second one under
    the same name. *)
Definition created : File := (Create ∅ "out.root").2.

Definition put_once : File :=
  mkFile "out.root" WriteMode false
    (String.list_byte_of_string "key" ++ hello)
    [mkKey "key" "TObjString" 1 0 3 2 2].

Definition put_twice : File :=
  mkFile "out.root" WriteMode false
    (String.list_byte_of_string "key" ++ hello
     ++ String.list_byte_of_string "key" ++ world)
    [mkKey "key" "TObjString" 1 0 3 2 2; mkKey "key" "TObjString" 2 5 3 2 2].

End riofs.

(** ** The basket reader over the modelled cursor and keys *)

Module rtree_std.
Import rtree.

(** A key and the bytes of the file it is attached to ([Key.SetFile]). *)
Record AKey : Type := mkAKey {
  hdr : riofs.Key;
  kfile : option (list byte)
}.

(** A method called through a [*rbytes.RBuffer]: nil has no cursor. *)
Definition on_cursor {A} (r : option rbytes.RBuffer)
    (k : rbytes.RBuffer -> A) : res A :=
  match r with
  | Some r => Ret (k r)
  | None => Panic "nil pointer dereference"
  end.

Definition some_cursor {A} (rv : rbytes.RBuffer * A)
  : option rbytes.RBuffer * A := (Some rv.1, rv.2).

Definition std_basket : Type := Basket (option rbytes.RBuffer) AKey.

(** [rbytes] and [riofs] as modelled above, with the codec and the decoder
    of basket headers ([Basket.UnmarshalROOT]) left to choose. *)
Definition std_deps (codec : riofs.Codec)
    (unm : std_basket -> res (std_basket * option error)) : Deps := {|
  RBuffer := option rbytes.RBuffer;
  File := list byte;
  Key := AKey;
  rb_Reset r data h := Ret (Some (rbytes.Reset r data h));
  rb_SetPos r pos := on_cursor r (fun r => Some (rbytes.SetPos r pos));
  rb_ReadI32 r := on_cursor r (fun r => some_cursor (rbytes.ReadI32 r));
  rb_ReadArrayI32 r arr :=
    on_cursor r (fun r => some_cursor (rbytes.ReadArrayI32 r arr));
  rb_Err r := on_cursor r rbytes.Err;
  ResizeU8 := rbytes.ResizeU8;
  ResizeI32 := rbytes.ResizeI32;
  ReadAt f b off := Ret (riofs.ReadAt f b off);
  SetFile k f := mkAKey (hdr k) (Some f);
  KeyLen k := riofs.keylen (hdr k);
  ObjLen k := riofs.objlen (hdr k);
  Load k b :=
    match kfile k with
    | Some d => Ret (@riofs.Load codec (hdr k) d b)
    | None => Panic "nil pointer dereference"
    end;
  UnmarshalROOT := unm
|}.

(** A header decoder that finds the given key, entry size and last
    pointer in the header. *)
Definition header_is (k : riofs.Key) (nev lst : Z)
  : std_basket -> res (std_basket * option error) :=
  fun b => Ret (mkBasket (mkAKey k None) nev lst (offsets b) (rbuf b), None).

(** A header decoder that always fails. *)
Definition header_bad (e : error)
  : std_basket -> res (std_basket * option error) :=
  fun b => Ret (b, Some e).

(** A leaf holding one [int32]. *)
Record LeafI32 : Type := mkLeafI32 {
  loff : Z;
  lval : Z
}.

#[global] Instance LeafI32_rleaf `{Deps} : rleaf LeafI32 := {|
  Offset l := loff l;
  readFromBuffer l r :=
    '(r, v) ← rb_ReadI32 r;
    e ← rb_Err r;
    Ret (mkLeafI32 (loff l) v, r, e)
|}.

(** *** A basket on disk

    A key header of 4 bytes, then the payload: two entries of 4 bytes, the
    count 3 and the offsets 4, 8 and 12. *)

Definition demo_key : riofs.Key := riofs.mkKey "b" "TBasket" 1 0 4 24 24.

Definition demo_file : list byte :=
  [Byte.x00; Byte.x00; Byte.x00; Byte.x00;
   Byte.x00; Byte.x00; Byte.x00; Byte.x0a;
   Byte.x00; Byte.x00; Byte.x00; Byte.x0b;
   Byte.x00; Byte.x00; Byte.x00; Byte.x03;
   Byte.x00; Byte.x00; Byte.x00; Byte.x04;
   Byte.x00; Byte.x00; Byte.x00; Byte.x08;
   Byte.x00; Byte.x00; Byte.x00; Byte.x0c].

Definition demo_payload : list byte := drop 4 demo_file.

(** The same basket with a table that is too short and out of order: the
    count 2 and the offsets 8 and 4. *)
Definition odd_key : riofs.Key := riofs.mkKey "b" "TBasket" 1 0 4 20 20.

Definition odd_file : list byte :=
  [Byte.x00; Byte.x00; Byte.x00; Byte.x00;
   Byte.x00; Byte.x00; Byte.x00; Byte.x0a;
   Byte.x00; Byte.x00; Byte.x00; Byte.x0b;
   Byte.x00; Byte.x00; Byte.x00; Byte.x02;
   Byte.x00; Byte.x00; Byte.x00; Byte.x08;
   Byte.x00; Byte.x00; Byte.x00; Byte.x04].

(** A key that declares 99 bytes for the 24 of [demo_file]. *)
Definition wrong_key : riofs.Key := riofs.mkKey "b" "TBasket" 1 0 4 24 99.

(** Keys are stored as they are; basket headers say: entries of 4 bytes,
    [last] at 12, and the key [k]. *)
Definition deps_for (k : riofs.Key) : Deps :=
  std_deps riofs.store_codec (header_is k 4 12).

Definition nil_key : AKey := mkAKey (riofs.mkKey "" "" 0 0 0 0 0) None.

(** An [rbasket] before its first use. *)
Definition fresh (k : riofs.Key) : @rbasket (deps_for k) :=
  @mkRbasket (deps_for k) 0 (@rspan_zero (deps_for k))
    (mkBasket nil_key 0 0 [] None) [].

(** Entries 0 and 1, at the start of the file, 4 bytes of header. *)
Definition demo_span (k : riofs.Key) : @rspan (deps_for k) :=
  @mkRspan (deps_for k) 0 2 0 4 None.

(** The basket of [demo_file], recovered: in memory already, with the
    offsets table [1; 2]. *)
Definition recovered_span : @rspan (deps_for demo_key) :=
  @mkRspan (deps_for demo_key) 0 2 0 0
    (Some (mkBasket (mkAKey demo_key None) 4 12 [1; 2] None)).

Definition demo_inflated : @rbasket (deps_for demo_key) :=
  @mkRbasket (deps_for demo_key) 7 (demo_span demo_key)
    (mkBasket (mkAKey demo_key (Some demo_file)) 4 12 [4; 8; 12]
       (Some (rbytes.mkRBuffer demo_payload 24 4 None)))
    demo_payload.

(** The same basket with entries of fixed size: no offsets table. *)
Definition demo_fixed : @rbasket (deps_for demo_key) :=
  @mkRbasket (deps_for demo_key) 7 (demo_span demo_key)
    (mkBasket (mkAKey demo_key (Some demo_file)) 4 12 []
       (Some (rbytes.mkRBuffer demo_payload 0 4 None)))
    demo_payload.

End rtree_std.

(** ** rarrow: the Arrow table over a tree *)

Module rarrow.

(** A table as [Retain] and [Release] see it.  Columns ([*array.Column],
    from the Arrow library) are named by numbers; [released] records, in
    order, every column the table has called [Release] on. *)
Record rootTable : Type := mkRootTable {
  refs : Z;
  ncols : Z;
  cols : list nat;
  released : list nat
}.

(** [NewTable], given the columns [init] builds, one per branch. *)
Definition NewTable (built : list nat) : rootTable :=
  mkRootTable 1 (Z.of_nat (length built)) built [].

(** [atomic.AddInt64]: the new value, wrapped. *)
Definition AddInt64 (v delta : Z) : Z := goint.int64 (v + delta).

Definition Retain (tbl : rootTable) : rootTable :=
  mkRootTable (AddInt64 (refs tbl) 1) (ncols tbl) (cols tbl) (released tbl).

Definition Release (tbl : rootTable) : res rootTable :=
  if decide (refs tbl <= 0) then Panic "groot/rarrow: too many releases"
  else
    let n := AddInt64 (refs tbl) (-1) in
    if decide (n = 0) then
      Ret (mkRootTable n (ncols tbl) [] (released tbl ++ cols tbl))
    else
      Ret (mkRootTable n (ncols tbl) (cols tbl) (released tbl)).

Inductive call : Type := CRetain | CRelease.

Definition step (c : call) (tbl : rootTable) : res rootTable :=
  match c with
  | CRetain => Ret (Retain tbl)
  | CRelease => Release tbl
  end.

(** Calls made one after the other; a panic ends the run. *)
Fixpoint calls (cs : list call) (tbl : rootTable) : res rootTable :=
  match cs with
  | [] => Ret tbl
  | c :: rest => tbl' ← step c tbl; calls rest tbl'
  end.

(** [NumCols] and [Column]: the number of columns as [NewTable] counted
    them, and [tbl.cols[i]]. *)
Definition NumCols (tbl : rootTable) : Z := ncols tbl.

Definition Column (tbl : rootTable) (i : Z) : res nat :=
  if decide (i < 0) then Panic "index out of range"
  else match cols tbl !! Z.to_nat i with
       | Some col => Ret col
       | None => Panic "index out of range"
       end.

(** Calls of [Retain] less calls of [Release]. *)
Fixpoint balance (cs : list call) : Z :=
  match cs with
  | [] => 0
  | CRetain :: rest => 1 + balance rest
  | CRelease :: rest => -1 + balance rest
  end.

(** The columns are still held and none was released, or all were
    released, once, and none is held. *)
Definition columns_ok (built : list nat) (tbl : rootTable) : Prop :=
  (cols tbl = built /\ released tbl = [])
  \/ (cols tbl = [] /\ released tbl = built).

Definition table_ok (built : list nat) (tbl : rootTable) : Prop :=
  goint.in_int64 (refs tbl) /\ columns_ok built tbl.

End rarrow.

(** ** hbooksvc: the histogram booking service *)

Module hbooksvc.

(** The character of the separator ["/"]. *)
Definition slash : Ascii.ascii := Ascii.ascii_of_nat 47.

(** [strings.TrimPrefix], [strings.TrimSuffix], [strings.Split] (on a
    one-character separator) and [strings.Join]. *)
Definition TrimPrefix (s pre : string) : string :=
  if String.prefix pre s
  then String.substring (String.length pre)
         (String.length s - String.length pre) s
  else s.

Definition HasSuffix (s suf : string) : bool :=
  bool_decide (String.length suf <= String.length s)%nat
  && bool_decide
       (String.substring (String.length s - String.length suf)
          (String.length suf) s = suf).

Definition TrimSuffix (s suf : string) : string :=
  if HasSuffix s suf
  then String.substring 0 (String.length s - String.length suf) s
  else s.

Fixpoint Split (s : string) (sep : Ascii.ascii) : list string :=
  match s with
  | EmptyString => [EmptyString]
  | String ch rest =>
      if decide (ch = sep) then EmptyString :: Split rest sep
      else match Split rest sep with
           | w :: ws => String ch w :: ws
           | [] => [String ch EmptyString]
           end
  end.

Definition Join (elems : list string) (sep : string) : string :=
  String.concat sep elems.

(** [strings.ContainsRune], and whether a string ends with a slash. *)
Fixpoint Contains (s : string) (ch : Ascii.ascii) : bool :=
  match s with
  | EmptyString => false
  | String c rest => bool_decide (c = ch) || Contains rest ch
  end.

Fixpoint ends_slash (s : string) : bool :=
  match s with
  | EmptyString => false
  | String c EmptyString => bool_decide (c = slash)
  | String _ rest => ends_slash rest
  end.

(** The mode of a stream; [OtherMode] is any value that is neither. *)
Inductive Mode : Type :=
| Read
| Write
| OtherMode (m : Z).

Record Stream : Type := mkStream {
  Name : string;
  StreamMode : Mode
}.

(** The errors of the booking functions, by their messages. *)
Inductive berror : Type :=
| ErrFSMState (st : Z)            (* can not book histograms during FSM-state *)
| ErrNoStream (sname : string)    (* no stream declared *)
| ErrNoReadStream (sname : string)
| ErrNoWriteStream (sname : string)
| ErrStreamMode (svc : string) (m : Mode)
| ErrRead (e : error).            (* what reading the stream reported *)

(** Packages [hbook] (the histograms), [fsm] (the states of the
    framework's state machine, ordered integers) and the stream types of
    this package are not among the sources: taken as an interface.  The
    bookkeeping that [rio] readers and writers do behind a stream is
    outside the service. *)
Class Ext : Type := {
  float64 : Type;
  hbookH1D : Type;
  hbookH2D : Type;
  hbookP1D : Type;
  hbookS2D : Type;
  NewH1D : Z -> float64 -> float64 -> res hbookH1D;
  NewH2D : Z -> float64 -> float64 -> Z -> float64 -> float64 -> res hbookH2D;
  NewP1D : Z -> float64 -> float64 -> res hbookP1D;
  NewS2D : res hbookS2D;
  (* [h.Annotation()[k] = v] *)
  annotH1D : hbookH1D -> string -> string -> hbookH1D;
  annotH2D : hbookH2D -> string -> string -> hbookH2D;
  annotP1D : hbookP1D -> string -> string -> hbookP1D;
  annotS2D : hbookS2D -> string -> string -> hbookS2D;
  Configured : Z;
  Running : Z;
  handle : Type;        (* the open file and rio reader/writer of a stream *)
  (* [istream.read(name, ptr)] *)
  readH1D : handle -> string -> hbookH1D -> res (hbookH1D * option berror);
  readH2D : handle -> string -> hbookH2D -> res (hbookH2D * option berror);
  readP1D : handle -> string -> hbookP1D -> res (hbookP1D * option berror);
  readS2D : handle -> string -> hbookS2D -> res (hbookS2D * option berror)
}.

Section service.
Context `{E : Ext}.

(** [fwk.H1D] and its siblings: an identifier and a histogram pointer. *)
Record H1D : Type := mkH1D { H1D_ID : string; Hist1 : option hbookH1D }.
Record H2D : Type := mkH2D { H2D_ID : string; Hist2 : option hbookH2D }.
Record P1D : Type := mkP1D { P1D_ID : string; Profile : option hbookP1D }.
Record S2D : Type := mkS2D { S2D_ID : string; Scatter : option hbookS2D }.

(** What a stream collects ([objs []interface{}]). *)
Inductive obj : Type :=
| ObjH1D (h : H1D)
| ObjH2D (h : H2D)
| ObjP1D (h : P1D)
| ObjS2D (h : S2D).

Record istream : Type := mkIstream {
  i_name : string;
  i_fname : string;
  i_r : handle;
  i_objs : list obj
}.

Record ostream : Type := mkOstream {
  o_name : string;
  o_fname : string;
  o_w : handle;
  o_objs : list obj
}.

Record hsvc : Type := mkHsvc {
  FSMState : Z;         (* fwk.SvcBase *)
  SvcName : string;     (* fwk.SvcBase *)
  h1ds : gmap string H1D;
  h2ds : gmap string H2D;
  p1ds : gmap string P1D;
  s2ds : gmap string S2D;
  streams : gmap string Stream;
  w : gmap string ostream;
  r : gmap string istream
}.

Definition set_h1ds (v : gmap string H1D) (svc : hsvc) : hsvc :=
  mkHsvc (FSMState svc) (SvcName svc) v (h2ds svc) (p1ds svc) (s2ds svc)
    (streams svc) (w svc) (r svc).
Definition set_h2ds (v : gmap string H2D) (svc : hsvc) : hsvc :=
  mkHsvc (FSMState svc) (SvcName svc) (h1ds svc) v (p1ds svc) (s2ds svc)
    (streams svc) (w svc) (r svc).
Definition set_p1ds (v : gmap string P1D) (svc : hsvc) : hsvc :=
  mkHsvc (FSMState svc) (SvcName svc) (h1ds svc) (h2ds svc) v (s2ds svc)
    (streams svc) (w svc) (r svc).
Definition set_s2ds (v : gmap string S2D) (svc : hsvc) : hsvc :=
  mkHsvc (FSMState svc) (SvcName svc) (h1ds svc) (h2ds svc) (p1ds svc) v
    (streams svc) (w svc) (r svc).
Definition set_w (v : gmap string ostream) (svc : hsvc) : hsvc :=
  mkHsvc (FSMState svc) (SvcName svc) (h1ds svc) (h2ds svc) (p1ds svc)
    (s2ds svc) (streams svc) v (r svc).
Definition set_r (v : gmap string istream) (svc : hsvc) : hsvc :=
  mkHsvc (FSMState svc) (SvcName svc) (h1ds svc) (h2ds svc) (p1ds svc)
    (s2ds svc) (streams svc) (w svc) v.

Definition fullname (stream hid : string) : string :=
  if decide (stream = EmptyString) then hid
  else (stream +:+ "/" +:+ hid)%string.

(** [split] splits a booking histo name into (stream-name, histo-name). *)
Definition split (n : string) : res (string * string) :=
  let n := TrimPrefix n "/" in
  let n := TrimSuffix n "/" in
  let o := Split n slash in
  match o with
  | [] => Panic "impossible"
  | [a] => Ret (EmptyString, a)
  | [a; b] => Ret (a, b)
  | a :: rest => Ret (a, Join rest "/")
  end.

(** The booking gate: the service is between [Configured] and [Running]. *)
Definition can_book (svc : hsvc) : bool :=
  bool_decide (Configured < FSMState svc) && bool_decide (FSMState svc < Running).

(** The [switch stream] of the four booking functions, which differ in the
    kind [T] of histogram only: [rd] reads one from a stream and [mk]
    packs the booked histogram for the stream's [objs].  [Some e] is the
    early [return h, err]. *)
Definition on_stream {T} (rd : handle -> string -> T -> res (T * option berror))
    (mk : T -> obj) (svc : hsvc) (stream hid : string) (hist : T)
  : res (hsvc * T * option berror) :=
  if decide (stream = EmptyString) then
    (* ok, temporary histo. *)
    Ret (svc, hist, None)
  else
    let sname := ("/" +:+ stream)%string in
    match streams svc !! sname with
    | None => Ret (svc, hist, Some (ErrNoStream sname))
    | Some str =>
        match StreamMode str with
        | Read =>
            match r svc !! sname with
            | None => Ret (svc, hist, Some (ErrNoReadStream sname))
            | Some rs =>
                '(hist, err) ← rd (i_r rs) hid hist;
                match err with
                | Some e => Ret (svc, hist, Some e)
                | None =>
                    let rs := mkIstream (i_name rs) (i_fname rs) (i_r rs)
                                (i_objs rs ++ [mk hist]) in
                    Ret (set_r (<[sname := rs]> (r svc)) svc, hist, None)
                end
            end
        | Write =>
            match w svc !! sname with
            | None => Ret (svc, hist, Some (ErrNoWriteStream sname))
            | Some ws =>
                let ws := mkOstream (o_name ws) (o_fname ws) (o_w ws)
                            (o_objs ws ++ [mk hist]) in
                Ret (set_w (<[sname := ws]> (w svc)) svc, hist, None)
            end
        | OtherMode _ =>
            Ret (svc, hist, Some (ErrStreamMode (SvcName svc) (StreamMode str)))
        end
    end.

Definition BookH1D (svc : hsvc) (name : string) (nbins : Z) (low high : float64)
  : res (hsvc * H1D * option berror) :=
  if negb (can_book svc) then
    Ret (svc, mkH1D EmptyString None, Some (ErrFSMState (FSMState svc)))
  else
    '(stream, hid) ← split name;
    hist ← NewH1D nbins low high;
    let hist := annotH1D hist "name" (fullname stream hid) in
    '(svc, hist, err) ← on_stream readH1D
        (fun x => ObjH1D (mkH1D hid (Some x))) svc stream hid hist;
    let h := mkH1D hid (Some hist) in
    match err with
    | Some e => Ret (svc, h, Some e)
    | None => Ret (set_h1ds (<[H1D_ID h := h]> (h1ds svc)) svc, h, None)
    end.

Definition BookH2D (svc : hsvc) (name : string) (nx : Z) (xmin xmax : float64)
    (ny : Z) (ymin ymax : float64) : res (hsvc * H2D * option berror) :=
  if negb (can_book svc) then
    Ret (svc, mkH2D EmptyString None, Some (ErrFSMState (FSMState svc)))
  else
    '(stream, hid) ← split name;
    hist ← NewH2D nx xmin xmax ny ymin ymax;
    let hist := annotH2D hist "name" (fullname stream hid) in
    '(svc, hist, err) ← on_stream readH2D
        (fun x => ObjH2D (mkH2D hid (Some x))) svc stream hid hist;
    let h := mkH2D hid (Some hist) in
    match err with
    | Some e => Ret (svc, h, Some e)
    | None => Ret (set_h2ds (<[H2D_ID h := h]> (h2ds svc)) svc, h, None)
    end.

Definition BookP1D (svc : hsvc) (name : string) (nbins : Z) (low high : float64)
  : res (hsvc * P1D * option berror) :=
  if negb (can_book svc) then
    Ret (svc, mkP1D EmptyString None, Some (ErrFSMState (FSMState svc)))
  else
    '(stream, hid) ← split name;
    hist ← NewP1D nbins low high;
    let hist := annotP1D hist "name" (fullname stream hid) in
    '(svc, hist, err) ← on_stream readP1D
        (fun x => ObjP1D (mkP1D hid (Some x))) svc stream hid hist;
    let h := mkP1D hid (Some hist) in
    match err with
    | Some e => Ret (svc, h, Some e)
    | None => Ret (set_p1ds (<[P1D_ID h := h]> (p1ds svc)) svc, h, None)
    end.

Definition BookS2D (svc : hsvc) (name : string)
  : res (hsvc * S2D * option berror) :=
  if negb (can_book svc) then
    Ret (svc, mkS2D EmptyString None, Some (ErrFSMState (FSMState svc)))
  else
    '(stream, hid) ← split name;
    hist ← NewS2D;
    let hist := annotS2D hist "name" (fullname stream hid) in
    '(svc, hist, err) ← on_stream readS2D
        (fun x => ObjS2D (mkS2D hid (Some x))) svc stream hid hist;
    let h := mkS2D hid (Some hist) in
    match err with
    | Some e => Ret (svc, h, Some e)
    | None => Ret (set_s2ds (<[S2D_ID h := h]> (s2ds svc)) svc, h, None)
    end.

End service.

(** *** Starting, stopping and filling *)

(** The errors of [StartSvc] and [StopSvc], by their messages. *)
Inductive serror : Type :=
| ErrDupRead (svc name : string)          (* duplicate read-stream *)
| ErrDupWrite (svc name : string)         (* duplicate write-stream *)
| ErrOpenFile (fname : string) (e : error)    (* error opening file *)
| ErrOpenRio (fname : string) (e : error)     (* error opening rio-stream *)
| ErrCreateFile (fname : string) (e : error)  (* error creating file *)
| ErrCreateRio (fname : string) (e : error)   (* error creating rio-stream *)
| ErrInvalidMode (svc : string) (m : Mode)    (* invalid stream mode *)
| ErrFlushing (n : string) (e : error)        (* error flushing *)
| ErrClosing (n : string) (e : error).        (* error closing *)

(** What [StartSvc], [StopSvc] and the fill functions call in packages
    [os], [rio] and [hbook] and in the stream types of this package, none
    of which is among the sources: taken as an interface.  A [handle] is
    the open file of a stream together with its rio reader or writer. *)
Class ExtIO `{E : Ext} : Type := {
  osfile : Type;
  os_Open : string -> osfile + error;
  os_Create : string -> osfile + error;
  rio_NewReader : osfile -> handle + error;
  rio_NewWriter : osfile -> handle + error;
  (* [ostream.write()], [ostream.close()], [istream.close()] *)
  ostream_write : ostream -> option error;
  ostream_close : ostream -> option error;
  istream_close : istream -> option error;
  (* [h.Hist.Fill(x, w)] and its siblings: the histogram after the fill *)
  fillH1D : hbookH1D -> float64 -> float64 -> res hbookH1D;
  fillH2D : hbookH2D -> float64 -> float64 -> float64 -> res hbookH2D;
  fillP1D : hbookP1D -> float64 -> float64 -> float64 -> res hbookP1D;
  fillS2D : hbookS2D -> float64 -> float64 -> res hbookS2D
}.

Section lifecycle.
Context `{IO : ExtIO}.

(** The body of the loop of [StartSvc], for one stream of [svc.streams]. *)
Definition start_stream (svc : hsvc) (name : string) (stream : Stream)
  : hsvc * option serror :=
  match StreamMode stream with
  | Read =>
      match r svc !! name with
      | Some _ => (svc, Some (ErrDupRead (SvcName svc) name))
      | None =>
          match os_Open (Name stream) with
          | inr e => (svc, Some (ErrOpenFile (Name stream) e))
          | inl f =>
              match rio_NewReader f with
              | inr e => (svc, Some (ErrOpenRio (Name stream) e))
              | inl h =>
                  (set_r (<[name := mkIstream name (Name stream) h []]> (r svc))
                     svc, None)
              end
          end
      end
  | Write =>
      match w svc !! name with
      | Some _ => (svc, Some (ErrDupWrite (SvcName svc) name))
      | None =>
          match os_Create (Name stream) with
          | inr e => (svc, Some (ErrCreateFile (Name stream) e))
          | inl f =>
              match rio_NewWriter f with
              | inr e => (svc, Some (ErrCreateRio (Name stream) e))
              | inl h =>
                  (set_w (<[name := mkOstream name (Name stream) h []]> (w svc))
                     svc, None)
              end
          end
      end
  | OtherMode _ =>
      (svc, Some (ErrInvalidMode (SvcName svc) (StreamMode stream)))
  end.

(** [StartSvc], with the streams of [svc.streams] in the order [entries]
    in which the [range] statement visits them (Go leaves the order of a
    map open): the first error ends the loop. *)
Fixpoint StartSvc (entries : list (string * Stream)) (svc : hsvc)
  : hsvc * option serror :=
  match entries with
  | [] => (svc, None)
  | (name, stream) :: rest =>
      match start_stream svc name stream with
      | (svc', Some e) => (svc', Some e)
      | (svc', None) => StartSvc rest svc'
      end
  end.

(** The calls [StopSvc] makes on streams. *)
Inductive io_call : Type :=
| CallWrite (n : string)
| CallCloseW (n : string)
| CallCloseR (n : string).

Definition as_list {A} (o : option A) : list A :=
  match o with
  | Some a => [a]
  | None => []
  end.

(** The first loop of [StopSvc]: flush and close every write stream, and
    collect the errors. *)
Fixpoint stop_writers (ws : list (string * ostream))
  : list io_call * list serror :=
  match ws with
  | [] => ([], [])
  | (n, o) :: rest =>
      let werr := as_list (ErrFlushing n <$> ostream_write o) in
      let cerr := as_list (ErrClosing n <$> ostream_close o) in
      let '(calls, errs) := stop_writers rest in
      (CallWrite n :: CallCloseW n :: calls, werr ++ cerr ++ errs)
  end.

(** The second loop: close every read stream. *)
Fixpoint stop_readers (rs : list (string * istream))
  : list io_call * list serror :=
  match rs with
  | [] => ([], [])
  | (n, i) :: rest =>
      let rerr := as_list (ErrClosing n <$> istream_close i) in
      let '(calls, errs) := stop_readers rest in
      (CallCloseR n :: calls, rerr ++ errs)
  end.

(** [StopSvc], with the write streams and the read streams in the order
    the two [range] statements visit them: the calls made, and the first
    error if there is one.  The service itself is not changed. *)
Definition StopSvc (ws : list (string * ostream)) (rs : list (string * istream))
  : list io_call * option serror :=
  let '(wcalls, werrs) := stop_writers ws in
  let '(rcalls, rerrs) := stop_readers rs in
  (wcalls ++ rcalls, head (werrs ++ rerrs)).

(** [FillH1D] and its siblings: the histogram behind the identifier after
    the fill.  An identifier that was not booked gives a nil [*h1d], whose
    mutex cannot be reached.  (The locks are left out: calls are made one
    after the other.) *)
Definition FillH1D (svc : hsvc) (id : string) (x wt : float64) : res hbookH1D :=
  match h1ds svc !! id with
  | None => Panic "nil pointer dereference"
  | Some h =>
      match Hist1 h with
      | None => Panic "nil pointer dereference"
      | Some hist => fillH1D hist x wt
      end
  end.

Definition FillH2D (svc : hsvc) (id : string) (x y wt : float64) : res hbookH2D :=
  match h2ds svc !! id with
  | None => Panic "nil pointer dereference"
  | Some h =>
      match Hist2 h with
      | None => Panic "nil pointer dereference"
      | Some hist => fillH2D hist x y wt
      end
  end.

Definition FillP1D (svc : hsvc) (id : string) (x y wt : float64) : res hbookP1D :=
  match p1ds svc !! id with
  | None => Panic "nil pointer dereference"
  | Some h =>
      match Profile h with
      | None => Panic "nil pointer dereference"
      | Some hist => fillP1D hist x y wt
      end
  end.

Definition FillS2D (svc : hsvc) (id : string) (x y : float64) : res hbookS2D :=
  match s2ds svc !! id with
  | None => Panic "nil pointer dereference"
  | Some h =>
      match Scatter h with
      | None => Panic "nil pointer dereference"
      | Some hist => fillS2D hist x y
      end
  end.

End lifecycle.

(** *** A small framework

    Histograms are their annotations; the states of the state machine are
    numbered from 0, [Configured] is 2 and [Running] is 5; reading a
    stream finds nothing to add. *)
Definition demo_ext : Ext := {|
  float64 := Z;
  hbookH1D := list (string * string);
  hbookH2D := list (string * string);
  hbookP1D := list (string * string);
  hbookS2D := list (string * string);
  NewH1D nbins lo hi :=
    if decide (0 < nbins) then Ret [] else Panic "hbook: invalid number of bins";
  NewH2D nx xmin xmax ny ymin ymax :=
    if decide (0 < nx /\ 0 < ny) then Ret []
    else Panic "hbook: invalid number of bins";
  NewP1D nbins lo hi :=
    if decide (0 < nbins) then Ret [] else Panic "hbook: invalid number of bins";
  NewS2D := Ret [];
  annotH1D h k v := (k, v) :: h;
  annotH2D h k v := (k, v) :: h;
  annotP1D h k v := (k, v) :: h;
  annotS2D h k v := (k, v) :: h;
  Configured := 2;
  Running := 5;
  handle := unit;
  readH1D _ _ h := Ret (h, None);
  readH2D _ _ h := Ret (h, None);
  readP1D _ _ h := Ret (h, None);
  readS2D _ _ h := Ret (h, None)
|}.

(** A service with one write stream, in FSM state [st]. *)
Definition demo_svc (st : Z) : @hsvc demo_ext :=
  @mkHsvc demo_ext st "hsvc" ∅ ∅ ∅ ∅
    {["/out" := mkStream "out.rio" Write]}
    {["/out" := @mkOstream demo_ext "/out" "out.rio" () []]}
    ∅.

(** Files always open; a stream named "bad.rio" fails to flush; filling
    adds an annotation. *)
Definition demo_io : @ExtIO demo_ext := {|
  osfile := string;
  os_Open := fun n => inl n;
  os_Create := fun n => inl n;
  rio_NewReader := fun _ => inl (() : @handle demo_ext);
  rio_NewWriter := fun _ => inl (() : @handle demo_ext);
  ostream_write := fun o =>
    if decide (o_fname o = "bad.rio") then Some IOError else None;
  ostream_close := fun _ => None;
  istream_close := fun _ => None;
  fillH1D := fun h _ _ => Ret (("fill", "1") :: h);
  fillH2D := fun h _ _ _ => Ret (("fill", "1") :: h);
  fillP1D := fun h _ _ _ => Ret (("fill", "1") :: h);
  fillS2D := fun h _ _ => Ret (("fill", "1") :: h)
|}.

(** A service as [newhsvc] makes it, with the streams [strs] declared. *)
Definition new_svc (st : Z) (strs : gmap string Stream) : @hsvc demo_ext :=
  @mkHsvc demo_ext st "hsvc" ∅ ∅ ∅ ∅ strs ∅ ∅.

Definition two_streams : list (string * Stream) :=
  [("/in", mkStream "in.rio" Read); ("/out", mkStream "out.rio" Write)].

(** The histogram "h1" of the stream "/out", the service once it is
    booked, and once "h1" is booked again, in memory only. *)
Definition demo_h1 : @H1D demo_ext :=
  @mkH1D demo_ext "h1" (Some [("name", "out/h1")]).

Definition booked_svc : @hsvc demo_ext :=
  set_h1ds (<["h1" := demo_h1]> ∅)
    (set_w (<["/out" := @mkOstream demo_ext "/out" "out.rio" ()
                          [@ObjH1D demo_ext demo_h1]]>
              (w (demo_svc 3)))
       (demo_svc 3)).

Definition demo_h1' : @H1D demo_ext :=
  @mkH1D demo_ext "h1" (Some [("name", "h1")]).

Definition rebooked_svc : @hsvc demo_ext :=
  set_h1ds (<["h1" := demo_h1']> (h1ds booked_svc)) booked_svc.

(** The two streams declared, and the service once they are started. *)
Definition demo_streams : gmap string Stream := list_to_map two_streams.

Definition started_svc (st : Z) : @hsvc demo_ext :=
  @mkHsvc demo_ext st "hsvc" ∅ ∅ ∅ ∅ demo_streams
    {["/out" := @mkOstream demo_ext "/out" "out.rio" () []]}
    {["/in" := @mkIstream demo_ext "/in" "in.rio" () []]}.

End hbooksvc.

(** * Properties *)

(** ** The byte cursor *)

Module rbytes_facts.
Import rbytes.

Lemma read_be_sticky n r e :
  err r = Some e -> read_be n r = (r, 0).
Proof. intros He. unfold read_be. by rewrite He. Qed.

Lemma decode_sticky op r e :
  err r = Some e -> decode op r = (r, zero_value op).
Proof.
  intros He.
  destruct op; cbn [decode zero_value];
    unfold with_value, ReadU8, ReadI8, ReadU16, ReadI16, ReadU32, ReadI32,
      ReadU64, ReadI64, ReadF32, ReadF64, ReadBool, ReadString, ReadArrayI32,
      signed;
    rewrite ?(read_be_sticky _ _ _ He), ?He; reflexivity.
Qed.

Lemma run_sticky ops r e :
  err r = Some e -> run ops r = (r, zero_value <$> ops).
Proof.
  intros He. induction ops as [|op ops IH]; [done|].
  cbn [run fmap list_fmap]. by rewrite (decode_sticky _ _ _ He), IH.
Qed.

Lemma run_app pre post r :
  run (pre ++ post) r =
  ((run post (run pre r).1).1, (run pre r).2 ++ (run post (run pre r).1).2).
Proof.
  revert r. induction pre as [|op pre IH]; intros r; cbn [run app].
  - cbn. by destruct (run post r).
  - destruct (decode op r) as [r1 v]. rewrite IH.
    destruct (run pre r1) as [r2 vs]. cbn. by destruct (run post r2).
Qed.

(** A read inside the buffer. *)
Lemma read_be_ok (n : nat) (r : RBuffer) :
  err r = None ->
  0 <= c r -> c r + Z.of_nat n <= Z.of_nat (length (p r)) ->
  read_be n r
  = (advance (Z.of_nat n) r, be_uint (take n (drop (Z.to_nat (c r)) (p r)))).
Proof.
  intros He H0 Hn. unfold read_be, fetch. rewrite He.
  by rewrite decide_True.
Qed.

(** [k] reads of an [int32] inside the buffer return the table stored
    under the cursor and move the cursor past it. *)
Lemma read_i32s_ok (k : nat) (r : RBuffer) :
  err r = None ->
  0 <= c r -> c r + 4 * Z.of_nat k <= Z.of_nat (length (p r)) ->
  read_i32s r k
  = (advance (4 * Z.of_nat k) r,
     be_int32s k (drop (Z.to_nat (c r)) (p r))).
Proof.
  revert r. induction k as [|k IH]; intros r He H0 Hk.
  - cbn. unfold advance. rewrite Z.add_0_r. by destruct r.
  - cbn [read_i32s be_int32s]. unfold ReadI32, signed.
    rewrite (read_be_ok 4 r); [|done|lia|lia]. cbn [fst snd].
    rewrite IH; [|done|cbn; lia|cbn; lia].
    f_equal.
    + unfold advance. cbn. f_equal. lia.
    + unfold goint.int32. f_equal. cbn. rewrite drop_drop.
      do 2 f_equal. lia.
Qed.

(** A decode operation never clears an error. *)
Lemma decode_keeps_err op r e :
  err r = Some e -> err (decode op r).1 = Some e.
Proof. intros He. by rewrite (decode_sticky _ _ _ He). Qed.

(** C6.  Once a chain of decode operations [pre] has left the cursor with
    an error [e], whatever decode operations [post] follow do nothing and
    return zero values: the cursor, the first error included, is the one
    [pre] left, so the error accessor read once after the whole chain
    reports it. *)
Theorem sticky_error (r : RBuffer) (pre post : list decode_op) (e : error) :
  Err (run pre r).1 = Some e ->
  run (pre ++ post) r = ((run pre r).1, (run pre r).2 ++ (zero_value <$> post))
  /\ Err (run (pre ++ post) r).1 = Some e.
Proof.
  intros He. unfold Err in *.
  assert (run (pre ++ post) r
          = ((run pre r).1, (run pre r).2 ++ (zero_value <$> post))) as Hrun.
  { rewrite run_app. by rewrite (run_sticky post _ _ He). }
  split; [exact Hrun|]. by rewrite Hrun.
Qed.

(** Read the other way round: a chain that ends without an error had none
    at any point on the way. *)
Lemma checked_once (r : RBuffer) (ops : list decode_op) (k : nat) :
  Err (run ops r).1 = None -> Err (run (take k ops) r).1 = None.
Proof.
  intros Hend. destruct (Err (run (take k ops) r).1) as [e|] eqn:Hk; [|done].
  rewrite <- (take_drop k ops), run_app in Hend. cbn [fst] in Hend.
  unfold Err in *. rewrite (run_sticky _ _ _ Hk) in Hend.
  cbn [fst] in Hend. congruence.
Qed.

(** [ReadI32] then [ReadArrayI32] on a cursor over two bytes: the first
    read fails, the second is skipped, and the error is there at the end. *)
Lemma sticky_error_witness :
  Err (run [RdI32] (NewRBuffer [Byte.x00; Byte.x01] 0)).1 = Some IOError
  /\ run ([RdI32] ++ [RdArrayI32 [7; 8; 9]]) (NewRBuffer [Byte.x00; Byte.x01] 0)
     = ((run [RdI32] (NewRBuffer [Byte.x00; Byte.x01] 0)).1,
        (run [RdI32] (NewRBuffer [Byte.x00; Byte.x01] 0)).2
          ++ (zero_value <$> [RdArrayI32 [7; 8; 9]]))
  /\ Err (run ([RdI32] ++ [RdArrayI32 [7; 8; 9]])
            (NewRBuffer [Byte.x00; Byte.x01] 0)).1 = Some IOError.
Proof.
  split; [reflexivity|].
  exact (sticky_error (NewRBuffer [Byte.x00; Byte.x01] 0)
           [RdI32] [RdArrayI32 [7; 8; 9]] IOError eq_refl).
Defined.

(** What that chain returns: zero for the count, the slice untouched. *)
Example sticky_chain_values :
  (run [RdI32; RdArrayI32 [7; 8; 9]] (NewRBuffer [Byte.x00; Byte.x01] 0)).2
  = [VInt 0; VArr [7; 8; 9]].
Proof. reflexivity. Qed.

(** A clean chain: a count of 2 and two offsets. *)
Example clean_chain_values :
  run [RdI32; RdArrayI32 [0; 0]]
    (NewRBuffer [Byte.x00; Byte.x00; Byte.x00; Byte.x02;
                 Byte.x00; Byte.x00; Byte.x00; Byte.x05;
                 Byte.xff; Byte.xff; Byte.xff; Byte.xff] 0)
  = (mkRBuffer [Byte.x00; Byte.x00; Byte.x00; Byte.x02;
                Byte.x00; Byte.x00; Byte.x00; Byte.x05;
                Byte.xff; Byte.xff; Byte.xff; Byte.xff] 12 0 None,
     [VInt 2; VArr [5; -1]]).
Proof. reflexivity. Qed.

End rbytes_facts.

(** ** Go integers *)

Module goint_facts.
Import goint.

Lemma wrap_add_l w a b : wrap w (wrap w a + b) = wrap w (a + b).
Proof.
  unfold wrap.
  replace ((a + 2 ^ (w - 1)) mod 2 ^ w - 2 ^ (w - 1) + b + 2 ^ (w - 1))
    with ((a + 2 ^ (w - 1)) mod 2 ^ w + b) by lia.
  rewrite Zplus_mod_idemp_l. do 2 f_equal. lia.
Qed.

Lemma wrap_add_r w a b : wrap w (a + wrap w b) = wrap w (a + b).
Proof. by rewrite (Z.add_comm a), wrap_add_l, (Z.add_comm b). Qed.

Lemma wrap_mul_r w a b : wrap w (a * wrap w b) = wrap w (a * b).
Proof.
  unfold wrap. f_equal.
  rewrite <- (Zplus_mod_idemp_l (a * _)).
  rewrite <- (Zmult_mod_idemp_r (_ - _)).
  rewrite Zminus_mod_idemp_l.
  replace (b + 2 ^ (w - 1) - 2 ^ (w - 1)) with b by lia.
  by rewrite Zmult_mod_idemp_r, Zplus_mod_idemp_l.
Qed.

Lemma int64_id x : in_int64 x -> int64 x = x.
Proof.
  unfold in_int64, min_int64, max_int64, int64, wrap. intros Hx.
  rewrite Z.mod_small; lia.
Qed.

(** The three-term sum of [loadRLeaf], each step in [int64], is the exact
    sum wrapped once. *)
Lemma int64_fixed_offset entry nev off klen :
  int64 (int64 (int64 (entry * int64 nev) + off) + int64 klen)
  = int64 (entry * nev + off + klen).
Proof.
  unfold int64.
  rewrite wrap_add_r, wrap_add_l, <- Z.add_assoc, wrap_add_l.
  rewrite (Z.add_comm (entry * _)), <- wrap_add_r, wrap_mul_r, wrap_add_r.
  f_equal; lia.
Qed.

End goint_facts.

(** ** The reader-side basket *)

Module rtree_facts.
Import rtree.

Section load.
Context `{D : Deps} {L : Type} `{!rleaf L}.

Lemma loadRLeaf_unfold (rbk : rbasket) (entry : Z) (leaf : L) :
  loadRLeaf rbk entry leaf =
  (off ← leaf_offset rbk entry leaf; seek_and_decode rbk leaf off).
Proof. reflexivity. Qed.

(** X1.  With an offsets table, an entry that is negative or not below
    the length of the table is out of the table: the index expression
    panics, the cursor is not moved and nothing is read. *)
Theorem loadRLeaf_out_of_range (rbk : rbasket) (entry : Z) (leaf : L) :
  offsets (bk rbk) <> [] ->
  entry < 0 \/ Z.of_nat (length (offsets (bk rbk))) <= entry ->
  loadRLeaf rbk entry leaf = Panic "index out of range".
Proof.
  intros Hne Hout. unfold loadRLeaf, leaf_offset, index.
  destruct (decide (length (offsets (bk rbk)) = 0%nat)) as [H0|_].
  { destruct (offsets (bk rbk)); [done|discriminate]. }
  destruct (decide (entry < 0)); [done|].
  rewrite lookup_ge_None_2; [done|lia].
Qed.

(** While the sum stays inside [int64], as it does for any basket that fits
    a file, the offset of a fixed-size entry is the sum itself. *)
Lemma leaf_offset_fixed_exact (rbk : rbasket) (entry : Z) (leaf : L) :
  offsets (bk rbk) = [] ->
  goint.in_int64 (entry * nevsize (bk rbk) + Offset leaf
                  + KeyLen (key (bk rbk))) ->
  leaf_offset rbk entry leaf
  = Ret (entry * nevsize (bk rbk) + Offset leaf + KeyLen (key (bk rbk))).
Proof.
  intros Hnil Hin. unfold leaf_offset. rewrite Hnil. cbn [length].
  rewrite decide_True by done.
  by rewrite goint_facts.int64_fixed_offset, goint_facts.int64_id.
Qed.

(** C1.  [loadRLeaf] computes the byte offset of the entry: without an
    offsets table it is [entry * nevsize + leaf.Offset() + KeyLen()]
    (in [int64]); with one it is the table's entry for [entry] plus
    [leaf.Offset()].  It then seeks the cursor there and hands it to the
    leaf's [readFromBuffer]. *)
Theorem loadRLeaf_offset (rbk : rbasket) (entry : Z) (leaf : L) :
  (offsets (bk rbk) = [] ->
   loadRLeaf rbk entry leaf =
   seek_and_decode rbk leaf
     (goint.int64 (entry * nevsize (bk rbk) + Offset leaf
                   + KeyLen (key (bk rbk)))))
  /\ (forall o : Z,
        offsets (bk rbk) <> [] ->
        0 <= entry ->
        offsets (bk rbk) !! Z.to_nat entry = Some o ->
        loadRLeaf rbk entry leaf =
        seek_and_decode rbk leaf (goint.int64 (o + Offset leaf))).
Proof.
  split.
  - intros Hnil. rewrite loadRLeaf_unfold. unfold leaf_offset.
    rewrite Hnil. cbn [length]. rewrite decide_True by done.
    cbn. by rewrite goint_facts.int64_fixed_offset.
  - intros o Hne Hpos Ho. rewrite loadRLeaf_unfold. unfold leaf_offset, index.
    destruct (decide (length (offsets (bk rbk)) = 0%nat)) as [H0|_].
    { destruct (offsets (bk rbk)); [done|discriminate]. }
    rewrite decide_False by lia. rewrite Ho. cbn.
    unfold goint.int64. by rewrite goint_facts.wrap_add_l.
Qed.

End load.

Section inflate_facts.
Context `{D : Deps}.

(** [reset] puts the basket number back to 0 and empties the span; the
    basket and the buffer stay. *)
Lemma reset_clears (rbk : rbasket) :
  id (reset rbk) = 0 /\ span (reset rbk) = rspan_zero
  /\ bk (reset rbk) = bk rbk /\ buf (reset rbk) = buf rbk.
Proof. by destruct rbk. Qed.

Lemma read_offsets_id_span (rbk rbk' : rbasket) (e : option error) :
  read_offsets rbk = Ret (rbk', e) -> id rbk' = id rbk /\ span rbk' = span rbk.
Proof.
  unfold read_offsets. intros H.
  destruct (rb_SetPos _ _) as [r3|]; [cbn in H|done].
  destruct (rb_ReadI32 r3) as [[r4 n]|]; [cbn in H|done].
  destruct (ResizeI32 _ n) as [arr|]; [cbn in H|done].
  destruct (rb_ReadArrayI32 _ _) as [[r5 offs]|]; [cbn in H|done].
  destruct (rb_Err _) as [e'|]; [cbn in H|done].
  by injection H as <- _.
Qed.

(** Whatever [inflate] returns, the basket number and the span of the
    [rbasket] are the ones it was called with. *)
Lemma inflate_id_span (rbk rbk' : rbasket) (name : string) (id0 : Z)
    (span0 : rspan) (eoff : Z) (f : File) (e : option error) :
  inflate rbk name id0 span0 eoff f = Ret (rbk', e) ->
  id rbk' = id0 /\ span rbk' = span0.
Proof.
  unfold inflate. intros H.
  set (rbk0 := match bkt span0 with
               | Some b => set_bk b (set_span span0 (set_id id0 rbk))
               | None => set_span span0 (set_id id0 rbk)
               end) in H.
  assert (id rbk0 = id0 /\ span rbk0 = span0) as Hrbk0
    by (subst rbk0; by destruct (bkt span0)).
  clearbody rbk0.
  destruct (decide (sz span0 = 0)).
  - destruct (ResizeU8 _ _) as [b1|]; [cbn in H|done].
    destruct (Load _ _) as [[b2 [e1|]]|]; [cbn in H..|done].
    + by injection H as <- _.
    + destruct (rb_Reset _ _ _) as [r1|]; [cbn in H|done].
      by injection H as <- _.
  - destruct (ResizeU8 _ _) as [b1|]; [cbn in H|done].
    destruct (ReadAt _ _ _) as [[b2 [e1|]]|]; [cbn in H..|done].
    { by injection H as <- _. }
    destruct (rb_Reset _ _ _) as [r1|]; [cbn in H|done].
    destruct (UnmarshalROOT _) as [[bk1 [e2|]]|]; [cbn in H..|done].
    { by injection H as <- _. }
    destruct (ResizeU8 _ _) as [b3|]; [cbn in H|done].
    destruct (Load _ _) as [[b4 [e3|]]|]; [cbn in H..|done].
    { by injection H as <- _. }
    destruct (rb_Reset _ _ _) as [r2|]; [cbn in H|done].
    destruct (decide (eoff > 0)).
    + apply read_offsets_id_span in H. cbn in H.
      by destruct H as [-> ->].
    + by injection H as <- _.
Qed.

(** C3, as amended.  [inflate] does not roll back: when it returns an
    error, the [rbasket] already carries the basket number and the span it
    was asked for. *)
Theorem inflate_error_not_rolled_back (rbk rbk' : rbasket) (name : string)
    (id0 : Z) (span0 : rspan) (eoff : Z) (f : File) (e : error) :
  inflate rbk name id0 span0 eoff f = Ret (rbk', Some e) ->
  id rbk' = id0 /\ span rbk' = span0.
Proof. apply inflate_id_span. Qed.

(** X2.  The recovered path ([bufsz == 0]) run to its end: the key is
    loaded, the cursor is put on the payload with a header length of 0,
    and no offsets table is read, whatever [eoff]: the table stays the one
    of the incoming basket. *)
Theorem inflate_recovered (rbk : rbasket) (name : string) (id0 : Z)
    (span0 : rspan) (eoff : Z) (f : File) (b1 b2 : list byte) (r1 : RBuffer) :
  sz span0 = 0 ->
  ResizeU8 (buf rbk) (ObjLen (SetFile (key (incoming rbk span0)) f)) = Ret b1 ->
  Load (SetFile (key (incoming rbk span0)) f) b1 = Ret (b2, None) ->
  rb_Reset (rbuf (incoming rbk span0)) b2 0 = Ret r1 ->
  inflate rbk name id0 span0 eoff f =
  Ret (mkRbasket id0 span0
         (bk_set_rbuf r1
            (bk_set_key (SetFile (key (incoming rbk span0)) f)
               (incoming rbk span0)))
         b2, None).
Proof.
  intros Hsz H1 H2 H3. unfold inflate. rewrite decide_True by done.
  unfold incoming in *.
  destruct (bkt span0) as [b|]; cbn; rewrite H1; cbn; rewrite H2; cbn;
    rewrite H3; reflexivity.
Qed.

(** An error of [Load] is what [inflate] returns, as it is and at once:
    no step follows, and [Load] is not called again. *)
Lemma inflate_load_error (rbk : rbasket) (name : string) (id0 : Z)
    (span0 : rspan) (eoff : Z) (f : File) (b : basket)
    (into out : list byte) (e : error) :
  reaches_load rbk span0 f b into ->
  Load (SetFile (key b) f) into = Ret (out, Some e) ->
  inflate rbk name id0 span0 eoff f =
  Ret (mkRbasket id0 span0 (bk_set_key (SetFile (key b) f) b) out, Some e).
Proof.
  intros Hreach Hload. unfold inflate.
  destruct Hreach as [b1 Hsz H1|b1 b2 b3 r1 bk1 Hsz H1 H2 H3 H4 H5].
  - rewrite decide_True by done. unfold incoming in *.
    destruct (bkt span0) as [b|]; cbn; rewrite H1; cbn; rewrite Hload;
      reflexivity.
  - rewrite decide_False by done. unfold incoming in *.
    destruct (bkt span0) as [b|]; cbn; rewrite H1; cbn; rewrite H2; cbn;
      rewrite H3; cbn; rewrite H4; cbn; rewrite H5; cbn; rewrite Hload;
      by destruct bk1.
Qed.

(** The offsets block changes the offsets table and the cursor only. *)
Lemma read_offsets_frame (rbk rbk' : rbasket) (e : option error) :
  read_offsets rbk = Ret (rbk', e) ->
  buf rbk' = buf rbk /\ key (bk rbk') = key (bk rbk)
  /\ nevsize (bk rbk') = nevsize (bk rbk) /\ last (bk rbk') = last (bk rbk)
  /\ rb_Err (rbuf (bk rbk')) = Ret e.
Proof.
  unfold read_offsets. intros H.
  destruct (rb_SetPos _ _) as [r3|]; [cbn in H|done].
  destruct (rb_ReadI32 r3) as [[r4 n]|]; [cbn in H|done].
  destruct (ResizeI32 _ n) as [arr|]; [cbn in H|done].
  destruct (rb_ReadArrayI32 _ _) as [[r5 offs]|]; [cbn in H|done].
  destruct (rb_Err _) as [e'|] eqn:He; [cbn in H|done].
  injection H as <- <-. by destruct rbk as [? ? [] ?].
Qed.

(** X3.  The errors of [inflate]: a failed read of the file and a failed
    decoding of the header, each under its own message; the error of
    [Load], as it is; and, for a basket read from the file for a branch
    with variable-length leaves, the error the cursor holds after the
    offsets table.  A recovered basket can fail in [Load] only. *)
Theorem inflate_error_sources (rbk rbk' : rbasket) (name : string) (id0 : Z)
    (span0 : rspan) (eoff : Z) (f : File) (e : error) :
  inflate rbk name id0 span0 eoff f = Ret (rbk', Some e) ->
  (sz span0 <> 0
   /\ exists (b1 b2 : list byte) (e' : error),
        ReadAt f b1 (pos span0) = Ret (b2, Some e')
        /\ e = Wrapped "rtree: could not read basket buffer from file" e')
  \/ (sz span0 <> 0
      /\ exists (b b' : basket) (e' : error),
           UnmarshalROOT b = Ret (b', Some e')
           /\ e = Wrapped "rtree: could not unmarshal basket buffer from file" e')
  \/ (exists (b : basket) (into out : list byte),
        reaches_load rbk span0 f b into
        /\ Load (SetFile (key b) f) into = Ret (out, Some e))
  \/ (sz span0 <> 0 /\ eoff > 0 /\ rb_Err (rbuf (bk rbk')) = Ret (Some e)).
Proof.
  unfold inflate. intros H.
  assert (forall rbk1,
    rbk1 = match bkt span0 with
           | Some b => set_bk b (set_span span0 (set_id id0 rbk))
           | None => set_span span0 (set_id id0 rbk)
           end ->
    bk rbk1 = incoming rbk span0 /\ buf rbk1 = buf rbk) as Hin.
  { intros ? ->. unfold incoming. by destruct (bkt span0). }
  set (rbk0 := match bkt span0 with
               | Some b => set_bk b (set_span span0 (set_id id0 rbk))
               | None => set_span span0 (set_id id0 rbk)
               end) in H.
  destruct (Hin rbk0 eq_refl) as [Hbk Hbuf]. clearbody rbk0. clear Hin.
  destruct (decide (sz span0 = 0)) as [Hsz|Hsz].
  - cbn in H. rewrite Hbk, Hbuf in H.
    destruct (ResizeU8 _ _) as [b1|] eqn:H1; [cbn in H|done].
    destruct (Load _ _) as [[b2 [e1|]]|] eqn:H2; [cbn in H..|done].
    + injection H as _ <-. right. right. left.
      exists (incoming rbk span0), b1, b2. split; [|done].
      by apply reach_recovered.
    + destruct (rb_Reset _ _ _) as [r1|]; [cbn in H|done]. done.
  - rewrite Hbuf in H.
    destruct (ResizeU8 _ _) as [b1|] eqn:H1; [cbn in H|done].
    destruct (ReadAt _ _ _) as [[b2 [e1|]]|] eqn:H2; [cbn in H..|done].
    { injection H as _ <-. left. split; [done|]. by exists b1, b2, e1. }
    rewrite Hbk in H.
    destruct (rb_Reset _ _ _) as [r1|] eqn:H3; [cbn in H|done].
    destruct (UnmarshalROOT _) as [[bk1 [e2|]]|] eqn:H4; [cbn in H..|done].
    { injection H as _ <-. right. left. split; [done|]. by eexists _, _, e2. }
    destruct (ResizeU8 b2 _) as [b3|] eqn:H5; [cbn in H|done].
    destruct (Load _ b3) as [[b4 [e3|]]|] eqn:H6; [cbn in H..|done].
    { injection H as _ <-. right. right. left. exists bk1, b3, b4.
      split; [|done]. by eapply reach_disk. }
    destruct (rb_Reset (rbuf bk1) _ _) as [r2|]; [cbn in H|done].
    destruct (decide (eoff > 0)); [|done].
    right. right. right. split; [done|]. split; [done|].
    by apply read_offsets_frame in H as (_ & _ & _ & _ & ?).
Qed.

(** X4.  When [inflate] succeeds, the buffer holds what [Load] made of the key
    of the basket, the recovered one or the one decoded from the file, and
    that key is attached to the file.  For a recovered basket or a branch
    with leaves of fixed size, the offsets table is the one the basket
    came with. *)
Theorem inflate_loaded (rbk rbk' : rbasket) (name : string) (id0 : Z)
    (span0 : rspan) (eoff : Z) (f : File) :
  inflate rbk name id0 span0 eoff f = Ret (rbk', None) ->
  exists (b : basket) (into : list byte),
    reaches_load rbk span0 f b into
    /\ Load (SetFile (key b) f) into = Ret (buf rbk', None)
    /\ key (bk rbk') = SetFile (key b) f
    /\ nevsize (bk rbk') = nevsize b /\ last (bk rbk') = last b
    /\ (sz span0 = 0 \/ eoff <= 0 -> offsets (bk rbk') = offsets b).
Proof.
  unfold inflate. intros H.
  assert (forall rbk1,
    rbk1 = match bkt span0 with
           | Some b => set_bk b (set_span span0 (set_id id0 rbk))
           | None => set_span span0 (set_id id0 rbk)
           end ->
    bk rbk1 = incoming rbk span0 /\ buf rbk1 = buf rbk) as Hin.
  { intros ? ->. unfold incoming. by destruct (bkt span0). }
  set (rbk0 := match bkt span0 with
               | Some b => set_bk b (set_span span0 (set_id id0 rbk))
               | None => set_span span0 (set_id id0 rbk)
               end) in H.
  destruct (Hin rbk0 eq_refl) as [Hbk Hbuf]. clearbody rbk0. clear Hin.
  destruct (decide (sz span0 = 0)) as [Hsz|Hsz].
  - cbn in H. rewrite Hbk, Hbuf in H.
    destruct (ResizeU8 _ _) as [b1|] eqn:H1; [cbn in H|done].
    destruct (Load _ _) as [[b2 [e1|]]|] eqn:H2; [cbn in H..|done]; [done|].
    destruct (rb_Reset _ _ _) as [r1|]; [cbn in H|done].
    injection H as <-. exists (incoming rbk span0), b1.
    split; [by apply reach_recovered|]. cbn. by rewrite Hbk.
  - rewrite Hbuf in H.
    destruct (ResizeU8 _ _) as [b1|] eqn:H1; [cbn in H|done].
    destruct (ReadAt _ _ _) as [[b2 [e1|]]|] eqn:H2; [cbn in H..|done]; [done|].
    rewrite Hbk in H.
    destruct (rb_Reset _ _ _) as [r1|] eqn:H3; [cbn in H|done].
    destruct (UnmarshalROOT _) as [[bk1 [e2|]]|] eqn:H4; [cbn in H..|done];
      [done|].
    destruct (ResizeU8 b2 _) as [b3|] eqn:H5; [cbn in H|done].
    destruct (Load _ b3) as [[b4 [e3|]]|] eqn:H6; [cbn in H..|done]; [done|].
    destruct (rb_Reset (rbuf bk1) _ _) as [r2|]; [cbn in H|done].
    exists bk1, b3. split; [by eapply reach_disk|].
    destruct (decide (eoff > 0)).
    + apply read_offsets_frame in H as (-> & -> & -> & -> & _). cbn.
      repeat split; try done. intros [?|?]; [done|lia].
    + injection H as <-. by cbn.
Qed.

End inflate_facts.

(** A basket read from the file ([bufsz != 0]) of a branch with
    variable-length leaves ([eoff > 0]), every step of [inflate] named. *)
Section disk_basket.
Context `{D : Deps}.
Variables (rbk : rbasket) (name : string) (id0 : Z) (span0 : rspan).
Variables (eoff : Z) (f : File).
Variables (b1 b2 b3 b4 : list byte) (r1 r2 r3 r4 r5 : RBuffer).
Variables (bk1 : basket) (n : Z) (arr offs : list Z) (e : option error).

Hypothesis on_disk : sz span0 <> 0.
Hypothesis resized : ResizeU8 (buf rbk) (sz span0) = Ret b1.
Hypothesis read : ReadAt f b1 (pos span0) = Ret (b2, None).
Hypothesis cursor1 : rb_Reset (rbuf (incoming rbk span0)) b2 0 = Ret r1.
Hypothesis header :
  UnmarshalROOT (bk_set_rbuf r1 (incoming rbk span0)) = Ret (bk1, None).
Hypothesis resized' : ResizeU8 b2 (ObjLen (SetFile (key bk1) f)) = Ret b3.
Hypothesis loaded : Load (SetFile (key bk1) f) b3 = Ret (b4, None).
Hypothesis cursor2 :
  rb_Reset (rbuf bk1) b4 (goint.uint32 (KeyLen (SetFile (key bk1) f))) = Ret r2.
Hypothesis variable_length : eoff > 0.
Hypothesis at_last : rb_SetPos r2 (goint.int64 (last bk1)) = Ret r3.
Hypothesis count : rb_ReadI32 r3 = Ret (r4, n).
Hypothesis table : ResizeI32 (offsets bk1) n = Ret arr.
Hypothesis filled : rb_ReadArrayI32 r4 arr = Ret (r5, offs).
Hypothesis checked : rb_Err r5 = Ret e.

Lemma inflate_disk :
  inflate rbk name id0 span0 eoff f
  = Ret (inflated id0 span0 f bk1 b4 offs r5, e).
Proof using All.
  unfold inflate, read_offsets, inflated. rewrite decide_False by done.
  unfold incoming in *.
  destruct (bkt span0) as [b|]; cbn;
    rewrite resized; cbn; rewrite read; cbn; rewrite cursor1; cbn;
    rewrite header; cbn; rewrite resized'; cbn; rewrite loaded; cbn;
    rewrite cursor2; cbn; rewrite decide_True by done; cbn;
    rewrite at_last; cbn; rewrite count; cbn; rewrite table; cbn;
    rewrite filled; cbn; rewrite checked; reflexivity.
Qed.


(** C5, as amended.  [inflate] takes the offsets table as the basket
    stores it and compares it with nothing.  When it gets to read the
    table of a basket read from the file, for a branch with
    variable-length leaves, it returns the error of the cursor and no
    other, and the table it leaves is the stored one: the offsets read
    after the count, in the order they are read, increasing or not, and as
    many of them as the count [n] read at [last] says, whatever the number
    of entries of the span -- which is the span asked for.  (The count is
    not negative: a table could not be sized to it.) *)
Theorem inflate_offsets_unchecked `{!DepsLaws} :
  exists rbk' : rbasket,
    inflate rbk name id0 span0 eoff f = Ret (rbk', e)
    /\ span rbk' = span0
    /\ offsets (bk rbk') = offs
    /\ Z.of_nat (length (offsets (bk rbk'))) = n
    /\ 0 <= n.
Proof using All.
  exists (inflated id0 span0 f bk1 b4 offs r5).
  split; [apply inflate_disk|]. cbn.
  split; [done|]. split; [done|].
  rewrite (ReadArrayI32_length _ _ _ _ filled).
  pose proof (ResizeI32_length _ _ _ table) as Hlen.
  split; [done|lia].
Qed.

End disk_basket.

End rtree_facts.

(** ** The basket reader over the modelled cursor and keys *)

Module rtree_std_facts.
Import rtree rtree_std rtree_facts.

Lemma resize_length {A} (zero : A) (sli arr : list A) (n : Z) :
  rbytes.resize zero sli n = Ret arr -> Z.of_nat (length arr) = n.
Proof.
  unfold rbytes.resize. destruct (decide (n < 0)); [done|].
  intros [= <-]. rewrite length_take, length_app, length_replicate. lia.
Qed.

Lemma resize_ok {A} (zero : A) (sli : list A) (n : Z) :
  0 <= n -> exists arr, rbytes.resize zero sli n = Ret arr.
Proof.
  intros Hn. unfold rbytes.resize. rewrite decide_False by lia. eauto.
Qed.

Lemma read_i32s_length (r : rbytes.RBuffer) (k : nat) :
  length (rbytes.read_i32s r k).2 = k.
Proof.
  revert r. induction k as [|k IH]; intros r; [done|].
  cbn [rbytes.read_i32s]. destruct (rbytes.ReadI32 r) as [r1 v].
  specialize (IH r1). destruct (rbytes.read_i32s r1 k) as [r2 vs].
  cbn in *. by rewrite IH.
Qed.

Lemma ReadArrayI32_same_length (r : rbytes.RBuffer) (arr : list Z) :
  length (rbytes.ReadArrayI32 r arr).2 = length arr.
Proof.
  unfold rbytes.ReadArrayI32. destruct (rbytes.err r); [done|].
  apply read_i32s_length.
Qed.

#[global] Instance std_laws codec unm : @DepsLaws (std_deps codec unm).
Proof.
  split.
  - intros sli arr n. apply resize_length.
  - intros [r|] r' arr arr'; cbn; [|done].
    intros [= <- <-]. apply ReadArrayI32_same_length.
Qed.

(** [Key.Load] on a payload whose size is not the declared one. *)
Lemma Load_size_mismatch `{C : riofs.Codec} (k : riofs.Key)
    (data buf raw payload : list byte) :
  riofs.slice data (riofs.seek k + riofs.keylen k) (riofs.clen k) = Some raw ->
  riofs.decompress raw = Some payload ->
  Z.of_nat (length payload) <> riofs.objlen k ->
  riofs.Load k data buf = (buf, Some CorruptBasket).
Proof.
  intros Hraw Hdec Hlen. unfold riofs.Load.
  rewrite Hraw, Hdec. by rewrite decide_False.
Qed.

(** C2.  When [inflate] gets to load a basket's key and the payload, once
    decompressed, has not the size the key declares, [inflate] returns
    [CorruptBasket]: the error of [Load] as it is, at once, with no second
    attempt and nothing put right. *)
Theorem inflate_corrupt_basket (codec : riofs.Codec)
    (unm : std_basket -> res (std_basket * option error))
    (rbk : @rbasket (std_deps codec unm)) (name : string) (id0 : Z)
    (span0 : @rspan (std_deps codec unm)) (eoff : Z) (f : list byte)
    (b : std_basket) (into raw payload : list byte) :
  @reaches_load (std_deps codec unm) rbk span0 f b into ->
  riofs.slice f (riofs.seek (hdr (key b)) + riofs.keylen (hdr (key b)))
    (riofs.clen (hdr (key b))) = Some raw ->
  @riofs.decompress codec raw = Some payload ->
  Z.of_nat (length payload) <> riofs.objlen (hdr (key b)) ->
  @inflate (std_deps codec unm) rbk name id0 span0 eoff f =
  Ret (@mkRbasket (std_deps codec unm) id0 span0
         (mkBasket (mkAKey (hdr (key b)) (Some f)) (nevsize b) (last b)
            (offsets b) (rbuf b))
         into,
       Some CorruptBasket).
Proof.
  intros Hreach Hraw Hdec Hlen.
  apply (inflate_load_error (D := std_deps codec unm)
           rbk name id0 span0 eoff f b into into CorruptBasket Hreach).
  cbn. by rewrite (Load_size_mismatch _ _ _ _ _ Hraw Hdec Hlen).
Qed.

(** Over the modelled cursor, the [eoff > 0] block of [inflate] reads
    the table the payload stores at [last]: with [i] the index of [last] in the
    payload and [n] the big-endian [int32] stored there, the offsets table
    becomes the [n] big-endian [int32] that follow, and the cursor ends
    behind them, without error. *)
Lemma read_offsets_stored_table (codec : riofs.Codec)
    (unm : std_basket -> res (std_basket * option error))
    (rbk : @rbasket (std_deps codec unm)) (r : rbytes.RBuffer) (i n : Z) :
  rbuf (bk rbk) = Some r ->
  rbytes.err r = None ->
  i = goint.int64 (last (bk rbk)) - rbytes.offset r ->
  n = goint.int32
        (rbytes.be_uint (take 4 (drop (Z.to_nat i) (rbytes.p r)))) ->
  0 <= i -> 0 <= n ->
  i + 4 + 4 * n <= Z.of_nat (length (rbytes.p r)) ->
  @read_offsets (std_deps codec unm) rbk =
  Ret (@mkRbasket (std_deps codec unm) (id rbk) (span rbk)
         (mkBasket (key (bk rbk)) (nevsize (bk rbk)) (last (bk rbk))
            (rbytes.be_int32s (Z.to_nat n)
               (drop (Z.to_nat (i + 4)) (rbytes.p r)))
            (Some (rbytes.mkRBuffer (rbytes.p r) (i + 4 + 4 * n)
                     (rbytes.offset r) None)))
         (buf rbk),
       None).
Proof.
  intros Hr He Hi Hn Hi0 Hn0 Hlen.
  destruct rbk as [i0 s0 [k0 ne la off rb] bu]. cbn in *. subst rb.
  unfold read_offsets. cbn.
  unfold rbytes.ReadI32, rbytes.signed.
  rewrite rbytes_facts.read_be_ok; cbn; rewrite <- ?Hi; [|done|lia|lia].
  change (goint.wrap 32 ?x) with (goint.int32 x). rewrite <- Hn.
  unfold rbytes.ResizeI32, rbytes.resize. rewrite decide_False by lia. cbn.
  set (arr := take (Z.to_nat n) _).
  set (r2 := rbytes.advance (Z.of_nat 4) (rbytes.SetPos r (goint.int64 la))).
  assert (length arr = Z.to_nat n) as Harr.
  { subst arr. rewrite length_take, length_app, length_replicate. lia. }
  assert (rbytes.ReadArrayI32 r2 arr
          = (rbytes.mkRBuffer (rbytes.p r) (i + 4 + 4 * n) (rbytes.offset r) None,
             rbytes.be_int32s (Z.to_nat n)
               (drop (Z.to_nat (i + 4)) (rbytes.p r)))) as ->.
  { unfold rbytes.ReadArrayI32. subst r2. cbn. rewrite He.
    rewrite rbytes_facts.read_i32s_ok; cbn; rewrite <- ?Hi, ?Harr;
      [|done|lia|lia].
    unfold rbytes.advance. cbn. rewrite He, <- Hi.
    rewrite Z2Nat.id by lia. reflexivity. }
  reflexivity.
Qed.

Example inflate_demo :
  inflate (fresh demo_key) "b" 7 (demo_span demo_key) 1 demo_file
  = Ret (demo_inflated, None).
Proof. reflexivity. Qed.

Example inflate_demo_fixed :
  inflate (fresh demo_key) "b" 7 (demo_span demo_key) 0 demo_file
  = Ret (demo_fixed, None).
Proof. reflexivity. Qed.

(** Entry 1 of either basket is the [int32] 11. *)
Example loadRLeaf_demo :
  loadRLeaf demo_inflated 1 (mkLeafI32 0 0)
  = Ret (@set_rbuf (deps_for demo_key)
           (Some (rbytes.mkRBuffer demo_payload 8 4 None)) demo_inflated,
         mkLeafI32 0 11, None)
  /\ loadRLeaf demo_fixed 1 (mkLeafI32 0 0)
     = Ret (@set_rbuf (deps_for demo_key)
              (Some (rbytes.mkRBuffer demo_payload 8 4 None)) demo_fixed,
            mkLeafI32 0 11, None).
Proof. split; reflexivity. Qed.

(** Entry 1 of the basket with entries of fixed size and of the basket
    with an offsets table. *)
Lemma loadRLeaf_offset_witness :
  loadRLeaf demo_fixed 1 (mkLeafI32 0 0)
  = seek_and_decode demo_fixed (mkLeafI32 0 0) (goint.int64 (1 * 4 + 0 + 4))
  /\ loadRLeaf demo_inflated 1 (mkLeafI32 0 0)
     = seek_and_decode demo_inflated (mkLeafI32 0 0) (goint.int64 (8 + 0)).
Proof.
  split.
  - exact (proj1 (loadRLeaf_offset demo_fixed 1 (mkLeafI32 0 0)) eq_refl).
  - refine (proj2 (loadRLeaf_offset demo_inflated 1 (mkLeafI32 0 0)) 8 _ _ _);
      [discriminate|lia|reflexivity].
Defined.

(** The declared size is wrong: [CorruptBasket]. *)
Lemma inflate_corrupt_basket_witness :
  inflate (fresh wrong_key) "b" 7 (demo_span wrong_key) 1 demo_file
  = Ret (@mkRbasket (deps_for wrong_key) 7 (demo_span wrong_key)
           (mkBasket (mkAKey wrong_key (Some demo_file)) 4 12 []
              (Some (rbytes.NewRBuffer (replicate 4 Byte.x00) 0)))
           (replicate 99 Byte.x00),
         Some CorruptBasket).
Proof.
  refine (inflate_corrupt_basket riofs.store_codec (header_is wrong_key 4 12)
            (fresh wrong_key) "b" 7 (demo_span wrong_key) 1 demo_file
            (mkBasket (mkAKey wrong_key None) 4 12 []
               (Some (rbytes.NewRBuffer (replicate 4 Byte.x00) 0)))
            (replicate 99 Byte.x00) demo_payload demo_payload _ _ _ _).
  - apply (reach_disk (D := deps_for wrong_key) _ _ _
             (replicate 4 Byte.x00) (replicate 4 Byte.x00)
             (replicate 99 Byte.x00)
             (Some (rbytes.NewRBuffer (replicate 4 Byte.x00) 0)));
      [discriminate|reflexivity..].
  - reflexivity.
  - reflexivity.
  - cbn. lia.
Defined.

(** C3 refuted.  The file is empty: reading the basket fails, and the
    [rbasket] that had number 0, the empty span and an empty buffer now
    has number 7, the span asked for and a buffer of four bytes. *)
Lemma inflate_error_changes_rbasket :
  exists (rbk' : @rbasket (deps_for demo_key)) (e : error),
    inflate (fresh demo_key) "b" 7 (demo_span demo_key) 1 [] = Ret (rbk', Some e)
    /\ ~ (id rbk' = id (fresh demo_key)
          /\ span rbk' = span (fresh demo_key)
          /\ buf rbk' = buf (fresh demo_key)
          /\ offsets (bk rbk') = offsets (bk (fresh demo_key))).
Proof.
  eexists _, _. split; [reflexivity|].
  cbn. intros [Hid _]. discriminate Hid.
Qed.

(** The failed call on the empty file: number 7 and the span asked for. *)
Lemma inflate_error_not_rolled_back_witness :
  id (@mkRbasket (deps_for demo_key) 7 (demo_span demo_key)
        (bk (fresh demo_key)) (replicate 4 Byte.x00)) = 7
  /\ span (@mkRbasket (deps_for demo_key) 7 (demo_span demo_key)
             (bk (fresh demo_key)) (replicate 4 Byte.x00))
     = demo_span demo_key.
Proof.
  apply (inflate_error_not_rolled_back (fresh demo_key) _ "b" 7
           (demo_span demo_key) 1 []
           (Wrapped "rtree: could not read basket buffer from file" IOError)).
  reflexivity.
Defined.

(** A table cut short: the count says 3, two offsets are there.  The
    cursor's error is returned, and the offsets table has been replaced all
    the same. *)
Example inflate_short_table :
  inflate (fresh odd_key) "b" 7 (demo_span odd_key) 1 (take 24 demo_file)
  = Ret (@mkRbasket (deps_for odd_key) 7 (demo_span odd_key)
           (mkBasket (mkAKey odd_key (Some (take 24 demo_file))) 4 12
              [4; 8; 0]
              (Some (rbytes.mkRBuffer (drop 4 (take 24 demo_file)) 20 4
                       (Some IOError))))
           (drop 4 (take 24 demo_file)),
         Some IOError).
Proof. reflexivity. Qed.

(** The recovered basket of [demo_file]: the table [1; 2] stays. *)
Lemma inflate_recovered_witness :
  inflate (fresh demo_key) "b" 7 recovered_span 1 demo_file
  = Ret (@mkRbasket (deps_for demo_key) 7 recovered_span
           (mkBasket (mkAKey demo_key (Some demo_file)) 4 12 [1; 2]
              (Some (rbytes.NewRBuffer demo_payload 0)))
           demo_payload,
         None).
Proof.
  exact (inflate_recovered (D := deps_for demo_key) (fresh demo_key) "b" 7
           recovered_span 1 demo_file (replicate 24 Byte.x00) demo_payload
           (Some (rbytes.NewRBuffer demo_payload 0))
           eq_refl eq_refl eq_refl eq_refl).
Defined.

(** The table of [demo_file]: at index 8 of the payload the count 3, then
    4, 8 and 12. *)
Lemma read_offsets_stored_table_witness :
  read_offsets demo_fixed = Ret (demo_inflated, None).
Proof.
  refine (read_offsets_stored_table riofs.store_codec (header_is demo_key 4 12)
            demo_fixed (rbytes.mkRBuffer demo_payload 0 4 None) 8 3
            eq_refl eq_refl eq_refl eq_refl _ _ _); cbn; lia.
Defined.



(** C5 refuted.  The basket of [odd_file] holds two entries; its table has
    the count 2 and the offsets 8 and 4.  [inflate] succeeds and leaves
    that table: two offsets where three are due, and decreasing. *)
Lemma inflate_keeps_odd_table :
  exists rbk' : @rbasket (deps_for odd_key),
    inflate (fresh odd_key) "b" 7 (demo_span odd_key) 1 odd_file
    = Ret (rbk', None)
    /\ offsets (bk rbk') = [8; 4]
    /\ Z.of_nat (length (offsets (bk rbk'))) <> entries (span rbk') + 1
    /\ ~ strictly_increasing (offsets (bk rbk')).
Proof.
  eexists. split; [reflexivity|]. cbn. repeat split; [done|].
  intros Hinc. specialize (Hinc 0%nat 8 4 eq_refl eq_refl). lia.
Qed.

(** [odd_file], step by step: the span has two entries, the count 2 is
    read, and the table is [8; 4], as stored. *)
Lemma inflate_offsets_unchecked_witness :
  exists rbk' : @rbasket (deps_for odd_key),
    inflate (fresh odd_key) "b" 7 (demo_span odd_key) 1 odd_file
    = Ret (rbk', None)
    /\ span rbk' = demo_span odd_key
    /\ offsets (bk rbk') = [8; 4]
    /\ Z.of_nat (length (offsets (bk rbk'))) = 2
    /\ 0 <= 2.
Proof.
  refine (inflate_offsets_unchecked (D := deps_for odd_key)
            (fresh odd_key) "b" 7 (demo_span odd_key) 1 odd_file
            (replicate 4 Byte.x00) (replicate 4 Byte.x00)
            (replicate 20 Byte.x00) (drop 4 odd_file)
            (Some (rbytes.NewRBuffer (replicate 4 Byte.x00) 0))
            (Some (rbytes.NewRBuffer (drop 4 odd_file) 4))
            (Some (rbytes.mkRBuffer (drop 4 odd_file) 8 4 None))
            (Some (rbytes.mkRBuffer (drop 4 odd_file) 12 4 None))
            (Some (rbytes.mkRBuffer (drop 4 odd_file) 20 4 None))
            (mkBasket (mkAKey odd_key None) 4 12 []
               (Some (rbytes.NewRBuffer (replicate 4 Byte.x00) 0)))
            2 [0; 0] [8; 4] None
            _ _ _ _ _ _ _ _ _ _ _ _ _ _);
    first [discriminate | reflexivity].
Defined.

(** The file is empty: reading the basket fails. *)
Lemma inflate_error_sources_witness :
  (sz (demo_span demo_key) <> 0
   /\ exists (b1 b2 : list byte) (e' : error),
        @ReadAt (deps_for demo_key) [] b1 (pos (demo_span demo_key))
        = Ret (b2, Some e')
        /\ Wrapped "rtree: could not read basket buffer from file" IOError
           = Wrapped "rtree: could not read basket buffer from file" e')
  \/ (sz (demo_span demo_key) <> 0
      /\ exists (b b' : @basket (deps_for demo_key)) (e' : error),
           @UnmarshalROOT (deps_for demo_key) b = Ret (b', Some e')
           /\ Wrapped "rtree: could not read basket buffer from file" IOError
              = Wrapped "rtree: could not unmarshal basket buffer from file" e')
  \/ (exists (b : @basket (deps_for demo_key)) (into out : list byte),
        reaches_load (fresh demo_key) (demo_span demo_key) [] b into
        /\ @Load (deps_for demo_key)
             (@SetFile (deps_for demo_key) (key b) []) into
           = Ret (out, Some (Wrapped
                    "rtree: could not read basket buffer from file" IOError)))
  \/ (sz (demo_span demo_key) <> 0 /\ 1 > 0
      /\ @rb_Err (deps_for demo_key)
           (rbuf (bk (@mkRbasket (deps_for demo_key) 7 (demo_span demo_key)
                        (bk (fresh demo_key)) (replicate 4 Byte.x00))))
         = Ret (Some (Wrapped "rtree: could not read basket buffer from file"
                        IOError))).
Proof.
  exact (inflate_error_sources (D := deps_for demo_key) (fresh demo_key)
           (@mkRbasket (deps_for demo_key) 7 (demo_span demo_key)
              (bk (fresh demo_key)) (replicate 4 Byte.x00))
           "b" 7 (demo_span demo_key) 1 []
           (Wrapped "rtree: could not read basket buffer from file" IOError)
           eq_refl).
Defined.

(** [demo_file] for a branch with leaves of fixed size. *)
Lemma inflate_loaded_witness :
  exists (b : @basket (deps_for demo_key)) (into : list byte),
    reaches_load (fresh demo_key) (demo_span demo_key) demo_file b into
    /\ @Load (deps_for demo_key) (@SetFile (deps_for demo_key) (key b) demo_file)
         into
       = Ret (buf demo_fixed, None)
    /\ key (bk demo_fixed) = @SetFile (deps_for demo_key) (key b) demo_file
    /\ nevsize (bk demo_fixed) = nevsize b /\ last (bk demo_fixed) = last b
    /\ (sz (demo_span demo_key) = 0 \/ 0 <= 0 ->
        offsets (bk demo_fixed) = offsets b).
Proof.
  exact (inflate_loaded (D := deps_for demo_key) (fresh demo_key) demo_fixed
           "b" 7 (demo_span demo_key) 0 demo_file eq_refl).
Defined.

(** Entry 3 of a basket whose table has three offsets. *)
Lemma loadRLeaf_out_of_range_witness :
  loadRLeaf demo_inflated 3 (mkLeafI32 0 0) = Panic "index out of range".
Proof.
  refine (loadRLeaf_out_of_range demo_inflated 3 (mkLeafI32 0 0) _ _).
  - discriminate.
  - right. cbn. lia.
Defined.

End rtree_std_facts.

(** ** The Arrow table *)

Module rarrow_facts.
Import rarrow.

Lemma int64_range (x : Z) : goint.in_int64 (goint.int64 x).
Proof.
  unfold goint.in_int64, goint.min_int64, goint.max_int64, goint.int64,
    goint.wrap.
  pose proof (Z.mod_pos_bound (x + 2 ^ (64 - 1)) (2 ^ 64)). lia.
Qed.

Lemma NewTable_ok (built : list nat) : table_ok built (NewTable built).
Proof.
  split; [|by left].
  unfold goint.in_int64, goint.min_int64, goint.max_int64. cbn. lia.
Qed.

Lemma Retain_spec (tbl : rootTable) :
  goint.in_int64 (refs tbl) -> refs tbl < goint.max_int64 ->
  refs (Retain tbl) = refs tbl + 1.
Proof.
  intros Hr Hmax. cbn. unfold AddInt64. apply goint_facts.int64_id.
  unfold goint.in_int64 in *. lia.
Qed.

Lemma Release_spec (tbl : rootTable) :
  goint.in_int64 (refs tbl) -> 0 < refs tbl ->
  Release tbl =
  Ret (if decide (refs tbl = 1)
       then mkRootTable 0 (ncols tbl) [] (released tbl ++ cols tbl)
       else mkRootTable (refs tbl - 1) (ncols tbl) (cols tbl) (released tbl)).
Proof.
  intros Hr Hpos. unfold Release. rewrite decide_False by lia.
  unfold AddInt64.
  replace (refs tbl + -1) with (refs tbl - 1) by lia.
  rewrite goint_facts.int64_id
    by (unfold goint.in_int64, goint.min_int64 in *; lia).
  destruct (decide (refs tbl = 1)) as [->|Hne]; [done|].
  by rewrite decide_False by lia.
Qed.

Lemma step_ok (built : list nat) (c : call) (tbl tbl' : rootTable) :
  table_ok built tbl -> step c tbl = Ret tbl' -> table_ok built tbl'.
Proof.
  intros [Hr Hc] Hstep. destruct c; cbn in Hstep.
  - injection Hstep as <-. split; [apply int64_range|exact Hc].
  - destruct (decide (refs tbl <= 0)) as [|Hpos]; [by unfold Release in Hstep; rewrite decide_True in Hstep|].
    rewrite Release_spec in Hstep by (done || lia).
    injection Hstep as <-.
    destruct (decide (refs tbl = 1)); cbn.
    + split; [unfold goint.in_int64, goint.min_int64, goint.max_int64; cbn; lia|].
      right. destruct Hc as [[-> ->]|[-> ->]]; cbn; by rewrite ?app_nil_r.
    + split; [|exact Hc]. cbn.
      unfold goint.in_int64, goint.min_int64 in *. lia.
Qed.

Lemma calls_ok (built : list nat) (cs : list call) (tbl tbl' : rootTable) :
  table_ok built tbl -> calls cs tbl = Ret tbl' -> table_ok built tbl'.
Proof.
  revert tbl. induction cs as [|c cs IH]; intros tbl Hok Hrun; cbn in Hrun.
  - by injection Hrun as <-.
  - destruct (step c tbl) as [tbl1|] eqn:Hstep; [cbn in Hrun|done].
    eapply IH; [|done]. by eapply step_ok.
Qed.

(** C9.  A table as [NewTable] returned it, after any calls of [Retain]
    and [Release] that did not panic.  [Retain] adds one to the count (the
    [int64] below its maximum).  [Release] panics when the count is zero or
    less; otherwise it takes one off, and when that makes zero it calls
    [Release] on every column and drops the slice, and else leaves the
    columns alone.  At any time, either no column has been released and all
    are held, or each has been released once and none is held. *)
Theorem table_refcount (built : list nat) (cs : list call) (tbl : rootTable) :
  calls cs (NewTable built) = Ret tbl ->
  (refs tbl < goint.max_int64 ->
   refs (Retain tbl) = refs tbl + 1
   /\ cols (Retain tbl) = cols tbl
   /\ released (Retain tbl) = released tbl)
  /\ (refs tbl <= 0 ->
      Release tbl = Panic "groot/rarrow: too many releases")
  /\ (0 < refs tbl ->
      exists tbl' : rootTable,
        Release tbl = Ret tbl'
        /\ refs tbl' = refs tbl - 1
        /\ (refs tbl' = 0 ->
            cols tbl' = [] /\ released tbl' = released tbl ++ cols tbl)
        /\ (refs tbl' <> 0 ->
            cols tbl' = cols tbl /\ released tbl' = released tbl))
  /\ ((cols tbl = built /\ released tbl = [])
      \/ (cols tbl = [] /\ released tbl = built)).
Proof.
  intros Hrun.
  destruct (calls_ok built cs _ _ (NewTable_ok built) Hrun) as [Hr Hc].
  split; [|split; [|split]].
  - intros Hmax. by rewrite Retain_spec.
  - intros Hle. unfold Release. by rewrite decide_True.
  - intros Hpos. eexists. split; [by apply Release_spec|].
    destruct (decide (refs tbl = 1)) as [H1|H1]; cbn.
    + split; [lia|]. split; [done|]. intros Hne. by destruct Hne.
    + split; [done|]. split; [|done]. intros H0. lia.
  - exact Hc.
Qed.

(** A table of two columns after [Retain] and [Release]: the count is 1
    again; one more [Release] frees both columns, and the next panics. *)
Lemma table_refcount_witness :
  calls [CRetain; CRelease] (NewTable [0; 1]%nat)
  = Ret (mkRootTable 1 2 [0; 1]%nat [])
  /\ refs (Retain (mkRootTable 1 2 [0; 1]%nat [])) = 1 + 1
  /\ Release (mkRootTable 1 2 [0; 1]%nat [])
     = Ret (mkRootTable 0 2 [] [0; 1]%nat)
  /\ Release (mkRootTable 0 2 [] [0; 1]%nat)
     = Panic "groot/rarrow: too many releases".
Proof.
  pose proof (table_refcount [0; 1]%nat [CRetain; CRelease]
                (mkRootTable 1 2 [0; 1]%nat []) eq_refl) as (Hret & _ & _ & _).
  pose proof (table_refcount [0; 1]%nat [CRetain; CRelease; CRelease]
                (mkRootTable 0 2 [] [0; 1]%nat) eq_refl) as (_ & Hpanic & _ & _).
  split; [reflexivity|]. split; [|split].
  - apply Hret. reflexivity.
  - reflexivity.
  - apply Hpanic. reflexivity.
Defined.

(** X5.  Over any run of [Retain] and [Release] from [NewTable], no
    column is released twice. *)
Theorem released_once (built : list nat) (cs : list call) (tbl : rootTable) :
  NoDup built -> calls cs (NewTable built) = Ret tbl -> NoDup (released tbl).
Proof.
  intros Hnd Hrun.
  destruct (calls_ok built cs _ _ (NewTable_ok built) Hrun)
    as [_ [[_ ->]|[_ ->]]]; [constructor|done].
Qed.

(** Released to zero, retained again, released again: the columns were
    released the first time only. *)
Lemma released_once_witness :
  NoDup (released (mkRootTable 0 2 [] [0; 1]%nat)).
Proof.
  refine (released_once [0; 1]%nat [CRelease; CRetain; CRelease]
            (mkRootTable 0 2 [] [0; 1]%nat) _ eq_refl).
  apply NoDup_cons. split; [|apply NoDup_singleton].
  intros Hin. apply list_elem_of_singleton in Hin. discriminate Hin.
Defined.

(** At the edge of [int64], [Retain] wraps. *)
Example Retain_wraps :
  refs (Retain (mkRootTable goint.max_int64 0 [] [])) = goint.min_int64.
Proof. reflexivity. Qed.

Lemma calls_balance (cs : list call) (tbl tbl' : rootTable) :
  0 <= refs tbl ->
  refs tbl + Z.of_nat (length cs) <= goint.max_int64 ->
  calls cs tbl = Ret tbl' ->
  refs tbl' = refs tbl + balance cs /\ 0 <= refs tbl'.
Proof.
  revert tbl. induction cs as [|c cs IH]; intros tbl H0 Hmax Hrun.
  - cbn in *. injection Hrun as <-. lia.
  - cbn [calls] in Hrun. cbn [length] in Hmax.
    destruct (step c tbl) as [tbl1|] eqn:Hstep; [cbn in Hrun|done].
    assert (goint.in_int64 (refs tbl)) as Hin
      by (unfold goint.in_int64, goint.min_int64; lia).
    destruct c; cbn in Hstep.
    + injection Hstep as <-.
      assert (refs (Retain tbl) = refs tbl + 1) as Hr
        by (apply Retain_spec; [done|lia]).
      destruct (IH (Retain tbl)) as [-> ?]; [lia|lia|done|]. cbn [balance]. lia.
    + destruct (decide (refs tbl <= 0)) as [Hle|Hpos].
      { unfold Release in Hstep. by rewrite decide_True in Hstep. }
      rewrite Release_spec in Hstep by (done || lia).
      injection Hstep as Htbl1.
      assert (refs tbl1 = refs tbl - 1) as Hr
        by (rewrite <- Htbl1; destruct (decide (refs tbl = 1)); cbn; lia).
      destruct (IH tbl1) as [-> ?]; [lia|lia|done|]. cbn [balance]. lia.
Qed.

(** X6.  Over a run of [Retain] and [Release] from [NewTable] that does
    not panic (and is shorter than the largest [int64]), the count is one
    plus the calls of [Retain] less the calls of [Release], and it is not
    negative. *)
Theorem refs_balance (built : list nat) (cs : list call) (tbl : rootTable) :
  Z.of_nat (length cs) < goint.max_int64 ->
  calls cs (NewTable built) = Ret tbl ->
  refs tbl = 1 + balance cs /\ 0 <= refs tbl.
Proof.
  intros Hlen Hrun.
  apply (calls_balance cs (NewTable built) tbl); [cbn; lia|cbn; lia|done].
Qed.

(** Two calls of [Retain] and one of [Release] leave the count at 2. *)
Lemma refs_balance_witness :
  refs (mkRootTable 2 2 [0; 1]%nat []) = 1 + balance [CRetain; CRelease; CRetain]
  /\ 0 <= refs (mkRootTable 2 2 [0; 1]%nat []).
Proof.
  refine (refs_balance [0; 1]%nat [CRetain; CRelease; CRetain]
            (mkRootTable 2 2 [0; 1]%nat []) _ eq_refl).
  reflexivity.
Defined.

Lemma calls_no_columns (cs : list call) (tbl tbl' : rootTable) :
  cols tbl = [] -> calls cs tbl = Ret tbl' ->
  cols tbl' = [] /\ released tbl' = released tbl /\ ncols tbl' = ncols tbl.
Proof.
  revert tbl. induction cs as [|c cs IH]; intros tbl Hc Hrun; cbn in Hrun.
  - by injection Hrun as <-.
  - destruct (step c tbl) as [tbl1|] eqn:Hstep; [cbn in Hrun|done].
    assert (cols tbl1 = [] /\ released tbl1 = released tbl
            /\ ncols tbl1 = ncols tbl) as (Hc1 & Hr1 & Hn1).
    { destruct c; cbn in Hstep.
      - by injection Hstep as <-.
      - unfold Release in Hstep.
        destruct (decide (refs tbl <= 0)); [done|].
        destruct (decide (AddInt64 (refs tbl) (-1) = 0));
          injection Hstep as <-; cbn; by rewrite ?Hc, ?app_nil_r. }
    destruct (IH tbl1 Hc1 Hrun) as (? & ? & ?). split; [done|]. split; congruence.
Qed.

(** X7.  Once a [Release] has brought the count to zero, the columns are
    gone for good: whatever calls of [Retain] and [Release] follow, the
    table holds no column, releases none again, and [Column(i)] panics for
    every [i], while [NumCols] still reports the number it had. *)
Theorem columns_gone (tbl0 tbl tbl' : rootTable) (cs : list call) (i : Z) :
  Release tbl0 = Ret tbl ->
  refs tbl = 0 ->
  calls cs tbl = Ret tbl' ->
  cols tbl' = []
  /\ released tbl' = released tbl
  /\ Column tbl' i = Panic "index out of range"
  /\ NumCols tbl' = NumCols tbl0.
Proof.
  intros Hrel Hz Hrun.
  assert (cols tbl = [] /\ ncols tbl = ncols tbl0) as [Hc Hn].
  { unfold Release in Hrel. destruct (decide (refs tbl0 <= 0)); [done|].
    destruct (decide (AddInt64 (refs tbl0) (-1) = 0));
      injection Hrel as <-; [done|]. cbn in Hz. done. }
  destruct (calls_no_columns cs tbl tbl' Hc Hrun) as (Hc' & Hr' & Hn').
  split; [done|]. split; [done|]. split.
  - unfold Column. rewrite Hc'. by destruct (decide (i < 0)).
  - unfold NumCols. congruence.
Qed.

(** A table of two columns, released, then retained: the count is 1 and
    the columns are gone. *)
Lemma columns_gone_witness :
  cols (mkRootTable 1 2 [] [0; 1]%nat) = []
  /\ released (mkRootTable 1 2 [] [0; 1]%nat)
     = released (mkRootTable 0 2 [] [0; 1]%nat)
  /\ Column (mkRootTable 1 2 [] [0; 1]%nat) 0 = Panic "index out of range"
  /\ NumCols (mkRootTable 1 2 [] [0; 1]%nat) = NumCols (NewTable [0; 1]%nat).
Proof.
  exact (columns_gone (NewTable [0; 1]%nat) (mkRootTable 0 2 [] [0; 1]%nat)
           (mkRootTable 1 2 [] [0; 1]%nat) [CRetain] 0
           eq_refl eq_refl eq_refl).
Defined.

End rarrow_facts.

(** ** The histogram service *)

Module hbooksvc_facts.
Import hbooksvc.

Section gate.
Context `{E : Ext}.

Lemma can_book_false (svc : hsvc) :
  ~ (Configured < FSMState svc /\ FSMState svc < Running) ->
  can_book svc = false.
Proof.
  intros Hout. unfold can_book.
  destruct (bool_decide (Configured < FSMState svc)) eqn:H1;
    destruct (bool_decide (FSMState svc < Running)) eqn:H2; try done.
  apply bool_decide_eq_true in H1, H2. by destruct Hout.
Qed.

(** C10.  Outside the states strictly between [Configured] and [Running],
    each of the four booking functions returns the booking error and the
    zero histogram handle, and leaves the service, its histogram maps and
    its streams, as it was. *)
Theorem booking_needs_state (svc : hsvc) (name : string)
    (nbins nx ny : Z) (low high xmin xmax ymin ymax : float64) :
  ~ (Configured < FSMState svc /\ FSMState svc < Running) ->
  BookH1D svc name nbins low high
  = Ret (svc, mkH1D EmptyString None, Some (ErrFSMState (FSMState svc)))
  /\ BookH2D svc name nx xmin xmax ny ymin ymax
     = Ret (svc, mkH2D EmptyString None, Some (ErrFSMState (FSMState svc)))
  /\ BookP1D svc name nbins low high
     = Ret (svc, mkP1D EmptyString None, Some (ErrFSMState (FSMState svc)))
  /\ BookS2D svc name
     = Ret (svc, mkS2D EmptyString None, Some (ErrFSMState (FSMState svc))).
Proof.
  intros Hout. unfold BookH1D, BookH2D, BookP1D, BookS2D.
  by rewrite (can_book_false svc Hout).
Qed.

(** X8.  Booking on a stream that was not declared, in a state that
    allows booking: the histogram is made and named, the error names the
    stream, and the service is as it was; nothing is registered. *)
Theorem booking_undeclared_stream (svc : hsvc) (name stream hid : string)
    (nbins : Z) (low high : float64) (hist : hbookH1D) :
  Configured < FSMState svc < Running ->
  split name = Ret (stream, hid) ->
  stream <> EmptyString ->
  streams svc !! ("/" +:+ stream)%string = None ->
  NewH1D nbins low high = Ret hist ->
  BookH1D svc name nbins low high
  = Ret (svc,
         mkH1D hid (Some (annotH1D hist "name" (fullname stream hid))),
         Some (ErrNoStream ("/" +:+ stream)%string)).
Proof.
  intros [H1 H2] Hsplit Hne Hnone Hnew. unfold BookH1D, can_book.
  rewrite !bool_decide_eq_true_2 by done. cbn.
  rewrite Hsplit. cbn. rewrite Hnew. cbn. unfold on_stream.
  rewrite decide_False by done. by rewrite Hnone.
Qed.

(** X9.  Booking a temporary histogram (no stream in its name), in a state
    that allows booking: it is registered under its name in [h1ds], and
    nothing else of the service changes. *)
Theorem booking_temporary (svc : hsvc) (name hid : string)
    (nbins : Z) (low high : float64) (hist : hbookH1D) :
  Configured < FSMState svc < Running ->
  split name = Ret (EmptyString, hid) ->
  NewH1D nbins low high = Ret hist ->
  BookH1D svc name nbins low high
  = Ret (set_h1ds
           (<[hid := mkH1D hid (Some (annotH1D hist "name" hid))]> (h1ds svc))
           svc,
         mkH1D hid (Some (annotH1D hist "name" hid)),
         None).
Proof.
  intros [H1 H2] Hsplit Hnew. unfold BookH1D, can_book.
  rewrite !bool_decide_eq_true_2 by done. cbn.
  rewrite Hsplit. cbn. by rewrite Hnew.
Qed.

End gate.

Section booking.
Context `{E : Ext}.

(** What the [switch stream] did when it let the booking go on: it left
    the service alone (no stream), or appended the histogram to the
    objects of the stream it names. *)
Lemma on_stream_ok {T} (rd : handle -> string -> T -> res (T * option berror))
    (mk : T -> obj) (svc svc' : hsvc) (stream hid : string) (hist hist' : T) :
  on_stream rd mk svc stream hid hist = Ret (svc', hist', None) ->
  (stream = EmptyString /\ svc' = svc /\ hist' = hist)
  \/ (stream <> EmptyString
      /\ exists str, streams svc !! ("/" +:+ stream)%string = Some str
         /\ ((StreamMode str = Read
              /\ exists rs, r svc !! ("/" +:+ stream)%string = Some rs
                 /\ svc' = set_r
                      (<[("/" +:+ stream)%string :=
                           mkIstream (i_name rs) (i_fname rs) (i_r rs)
                             (i_objs rs ++ [mk hist'])]> (r svc)) svc)
             \/ (StreamMode str = Write /\ hist' = hist
                 /\ exists ws, w svc !! ("/" +:+ stream)%string = Some ws
                    /\ svc' = set_w
                         (<[("/" +:+ stream)%string :=
                              mkOstream (o_name ws) (o_fname ws) (o_w ws)
                                (o_objs ws ++ [mk hist'])]> (w svc)) svc))).
Proof.
  unfold on_stream. intros H.
  destruct (decide (stream = EmptyString)) as [->|Hne].
  { injection H as <- <-. by left. }
  right. split; [done|].
  destruct (streams svc !! _) as [str|]; [|done]. exists str. split; [done|].
  destruct (StreamMode str); [left|right|done].
  - destruct (r svc !! _) as [rs|]; [|done]. cbn in H.
    destruct (rd _ _ _) as [[h1 [e|]]|]; [done| |done]. cbn in H.
    injection H as <- <-. split; [done|]. by exists rs.
  - destruct (w svc !! _) as [ws|]; [|done].
    injection H as <- <-. split; [done|]. split; [done|]. by exists ws.
Qed.

(** When the [switch stream] ends the booking with an error, the service
    is as it was. *)
Lemma on_stream_error {T} (rd : handle -> string -> T -> res (T * option berror))
    (mk : T -> obj) (svc svc' : hsvc) (stream hid : string) (hist hist' : T)
    (e : berror) :
  on_stream rd mk svc stream hid hist = Ret (svc', hist', Some e) -> svc' = svc.
Proof.
  unfold on_stream. intros H.
  destruct (decide (stream = EmptyString)); [done|].
  destruct (streams svc !! _) as [str|]; [|by injection H as <- _ _].
  destruct (StreamMode str).
  - destruct (r svc !! _) as [rs|]; [|by injection H as <- _ _]. cbn in H.
    destruct (rd _ _ _) as [[h1 [e'|]]|]; [|done|done]. cbn in H.
    by injection H as <- _ _.
  - destruct (w svc !! _) as [ws|]; [done|by injection H as <- _ _].
  - by injection H as <- _ _.
Qed.

(** X10.  A booking that fails registers nothing and changes nothing:
    whenever one of the four booking functions returns an error, the
    service it returns is the one it was given. *)
Theorem booking_error_untouched (svc : hsvc) (name : string)
    (nbins nx ny : Z) (low high xmin xmax ymin ymax : float64) :
  (forall svc' h e,
     BookH1D svc name nbins low high = Ret (svc', h, Some e) -> svc' = svc)
  /\ (forall svc' h e,
        BookH2D svc name nx xmin xmax ny ymin ymax = Ret (svc', h, Some e) ->
        svc' = svc)
  /\ (forall svc' h e,
        BookP1D svc name nbins low high = Ret (svc', h, Some e) -> svc' = svc)
  /\ (forall svc' h e,
        BookS2D svc name = Ret (svc', h, Some e) -> svc' = svc).
Proof.
  repeat split; intros svc' h e H;
    unfold BookH1D, BookH2D, BookP1D, BookS2D in H;
    (destruct (can_book svc); cbn in H; [|by injection H as <- _ _]);
    (destruct (split name) as [[stream hid]|]; cbn in H; [|done]).
  - destruct (NewH1D _ _ _) as [hist|]; cbn in H; [|done].
    destruct (on_stream _ _ _ _ _ _) as [[[svc1 h1] [e1|]]|] eqn:Hon;
      cbn in H; [|done|done].
    injection H as <- _ _. by apply on_stream_error in Hon.
  - destruct (NewH2D _ _ _ _ _ _) as [hist|]; cbn in H; [|done].
    destruct (on_stream _ _ _ _ _ _) as [[[svc1 h1] [e1|]]|] eqn:Hon;
      cbn in H; [|done|done].
    injection H as <- _ _. by apply on_stream_error in Hon.
  - destruct (NewP1D _ _ _) as [hist|]; cbn in H; [|done].
    destruct (on_stream _ _ _ _ _ _) as [[[svc1 h1] [e1|]]|] eqn:Hon;
      cbn in H; [|done|done].
    injection H as <- _ _. by apply on_stream_error in Hon.
  - destruct NewS2D as [hist|]; cbn in H; [|done].
    destruct (on_stream _ _ _ _ _ _) as [[[svc1 h1] [e1|]]|] eqn:Hon;
      cbn in H; [|done|done].
    injection H as <- _ _. by apply on_stream_error in Hon.
Qed.

(** A booking of [BookH1D] that succeeds, taken apart. *)
Lemma BookH1D_ok (svc svc' : hsvc) (name : string) (nbins : Z)
    (low high : float64) (h : H1D) :
  BookH1D svc name nbins low high = Ret (svc', h, None) ->
  Configured < FSMState svc < Running
  /\ exists (stream hid : string) (hist0 hist : hbookH1D) (svc1 : hsvc),
       split name = Ret (stream, hid)
       /\ NewH1D nbins low high = Ret hist0
       /\ h = mkH1D hid (Some hist)
       /\ on_stream readH1D (fun x => ObjH1D (mkH1D hid (Some x))) svc stream
            hid (annotH1D hist0 "name" (fullname stream hid))
          = Ret (svc1, hist, None)
       /\ svc' = set_h1ds (<[hid := h]> (h1ds svc1)) svc1.
Proof.
  unfold BookH1D, can_book. intros H.
  destruct (bool_decide (Configured < FSMState svc)) eqn:H1; [|done].
  destruct (bool_decide (FSMState svc < Running)) eqn:H2; [|done].
  apply bool_decide_eq_true in H1, H2. split; [done|]. cbn in H.
  destruct (split name) as [[stream hid]|]; cbn in H; [|done].
  destruct (NewH1D _ _ _) as [hist0|]; cbn in H; [|done].
  destruct (on_stream _ _ _ _ _ _) as [[[svc1 h1] [e1|]]|] eqn:Hon;
    cbn in H; [done| |done].
  injection H as <- <-. by exists stream, hid, hist0, h1, svc1.
Qed.

(** X11.  A booking of [BookH1D] that succeeds was made between
    [Configured] and [Running]; the histogram it returns carries the
    histogram name that [split] finds in the booking name; it is
    registered in [h1ds] under that name; and the other histogram maps, the
    declared streams and the state of the service are as they were. *)
Theorem booking_registers (svc svc' : hsvc) (name : string) (nbins : Z)
    (low high : float64) (h : H1D) :
  BookH1D svc name nbins low high = Ret (svc', h, None) ->
  Configured < FSMState svc < Running
  /\ (exists stream : string, split name = Ret (stream, H1D_ID h))
  /\ is_Some (Hist1 h)
  /\ h1ds svc' = <[H1D_ID h := h]> (h1ds svc)
  /\ h2ds svc' = h2ds svc /\ p1ds svc' = p1ds svc /\ s2ds svc' = s2ds svc
  /\ streams svc' = streams svc
  /\ FSMState svc' = FSMState svc /\ SvcName svc' = SvcName svc.
Proof.
  intros H.
  apply BookH1D_ok in H
    as (Hst & stream & hid & hist0 & hist & svc1 & Hsplit & _ & -> & Hon & ->).
  split; [done|]. split; [by exists stream|]. split; [by eexists|].
  apply on_stream_ok in Hon
    as [(_ & -> & _)|(_ & str & _ & [(_ & rs & _ & ->)|(_ & _ & ws & _ & ->)])];
    by repeat split.
Qed.

(** X12.  A booking of [BookH1D] on a declared write stream that succeeds
    appends one object to the objects of that stream, the histogram it
    returns, and touches neither another write stream nor the read
    streams. *)
Theorem booking_on_write_stream (svc svc' : hsvc) (name stream hid : string)
    (nbins : Z) (low high : float64) (h : H1D) (str : Stream) :
  BookH1D svc name nbins low high = Ret (svc', h, None) ->
  split name = Ret (stream, hid) ->
  stream <> EmptyString ->
  streams svc !! ("/" +:+ stream)%string = Some str ->
  StreamMode str = Write ->
  r svc' = r svc
  /\ exists ws : ostream,
       w svc !! ("/" +:+ stream)%string = Some ws
       /\ w svc' = <[("/" +:+ stream)%string :=
                      mkOstream (o_name ws) (o_fname ws) (o_w ws)
                        (o_objs ws ++ [ObjH1D h])]> (w svc).
Proof.
  intros H Hsplit Hne Hstr Hmode.
  apply BookH1D_ok in H
    as (_ & stream' & hid' & hist0 & hist & svc1 & Hsplit' & _ & -> & Hon & ->).
  rewrite Hsplit in Hsplit'. injection Hsplit' as <- <-.
  apply on_stream_ok in Hon
    as [(-> & _)|(_ & str' & Hstr' & [(Hm & _)|(_ & _ & ws & Hws & ->)])].
  - done.
  - rewrite Hstr in Hstr'. injection Hstr' as <-. by rewrite Hmode in Hm.
  - split; [done|]. by exists ws.
Qed.

(** X13.  Histograms are registered under their name without the stream:
    of two bookings that succeed with the same histogram name, in whatever
    streams, only the second is left in [h1ds]. *)
Theorem booking_same_name (svc svc1 svc2 : hsvc) (name1 name2 : string)
    (nbins1 nbins2 : Z) (low1 high1 low2 high2 : float64) (h1 h2 : H1D) :
  BookH1D svc name1 nbins1 low1 high1 = Ret (svc1, h1, None) ->
  BookH1D svc1 name2 nbins2 low2 high2 = Ret (svc2, h2, None) ->
  H1D_ID h1 = H1D_ID h2 ->
  h1ds svc2 !! H1D_ID h1 = Some h2
  /\ (forall id, id <> H1D_ID h1 -> h1ds svc2 !! id = h1ds svc !! id).
Proof.
  intros HB1 HB2 Hid.
  assert (h1ds svc1 = <[H1D_ID h1 := h1]> (h1ds svc)) as H1.
  { apply BookH1D_ok in HB1
      as (_ & stream & hid & hist0 & hist & s1 & _ & _ & -> & Hon & ->).
    apply on_stream_ok in Hon
      as [(_ & -> & _)|(_ & str & _ & [(_ & rs & _ & ->)|(_ & _ & ws & _ & ->)])];
      done. }
  assert (h1ds svc2 = <[H1D_ID h2 := h2]> (h1ds svc1)) as H2.
  { apply BookH1D_ok in HB2
      as (_ & stream & hid & hist0 & hist & s1 & _ & _ & -> & Hon & ->).
    apply on_stream_ok in Hon
      as [(_ & -> & _)|(_ & str & _ & [(_ & rs & _ & ->)|(_ & _ & ws & _ & ->)])];
      done. }
  rewrite H2, H1, <- Hid. split.
  - by rewrite lookup_insert_eq.
  - intros id Hne. by rewrite !lookup_insert_ne.
Qed.

End booking.

Section lifecycle_facts.
Context `{IO : ExtIO}.

(** A stream that [StartSvc] cannot start leaves the service as it was. *)
Lemma start_stream_error (svc svc' : hsvc) (name : string) (stream : Stream)
    (e : serror) :
  start_stream svc name stream = (svc', Some e) -> svc' = svc.
Proof.
  unfold start_stream. intros H.
  destruct (StreamMode stream).
  - destruct (r svc !! name); [by injection H as <- _|].
    destruct (os_Open _) as [f|]; [|by injection H as <- _].
    destruct (rio_NewReader f); [done|by injection H as <- _].
  - destruct (w svc !! name); [by injection H as <- _|].
    destruct (os_Create _) as [f|]; [|by injection H as <- _].
    destruct (rio_NewWriter f); [done|by injection H as <- _].
  - by injection H as <- _.
Qed.

(** A stream that [StartSvc] starts was not open, and is then open under
    its name with no object. *)
Lemma start_stream_ok (svc svc' : hsvc) (name : string) (stream : Stream) :
  start_stream svc name stream = (svc', None) ->
  (StreamMode stream = Read /\ r svc !! name = None
   /\ exists h, svc' = set_r (<[name := mkIstream name (Name stream) h []]> (r svc))
                         svc)
  \/ (StreamMode stream = Write /\ w svc !! name = None
      /\ exists h, svc' = set_w (<[name := mkOstream name (Name stream) h []]>
                                   (w svc)) svc).
Proof.
  unfold start_stream. intros H.
  destruct (StreamMode stream); [left|right|done].
  - destruct (r svc !! name); [done|].
    destruct (os_Open _) as [f|]; [|done].
    destruct (rio_NewReader f) as [h|]; [|done].
    injection H as <-. eauto.
  - destruct (w svc !! name); [done|].
    destruct (os_Create _) as [f|]; [|done].
    destruct (rio_NewWriter f) as [h|]; [|done].
    injection H as <-. eauto.
Qed.

(** The rest of the service, and the streams that are open, stay. *)
Lemma start_stream_frame (svc svc' : hsvc) (name : string) (stream : Stream) :
  start_stream svc name stream = (svc', None) ->
  h1ds svc' = h1ds svc /\ h2ds svc' = h2ds svc /\ p1ds svc' = p1ds svc
  /\ s2ds svc' = s2ds svc /\ streams svc' = streams svc
  /\ FSMState svc' = FSMState svc /\ SvcName svc' = SvcName svc
  /\ (forall n, n <> name -> r svc' !! n = r svc !! n /\ w svc' !! n = w svc !! n)
  /\ (forall n x, r svc !! n = Some x -> r svc' !! n = Some x)
  /\ (forall n x, w svc !! n = Some x -> w svc' !! n = Some x).
Proof.
  intros [(_ & Hn & h & ->)|(_ & Hn & h & ->)]%start_stream_ok; cbn;
    repeat split; try done.
  - by rewrite lookup_insert_ne.
  - intros n x Hx. rewrite lookup_insert_ne; [done|]. intros <-. congruence.
  - by rewrite lookup_insert_ne.
  - intros n x Hx. rewrite lookup_insert_ne; [done|]. intros <-. congruence.
Qed.

Lemma StartSvc_frame (entries : list (string * Stream)) (svc svc' : hsvc) :
  StartSvc entries svc = (svc', None) ->
  h1ds svc' = h1ds svc /\ h2ds svc' = h2ds svc /\ p1ds svc' = p1ds svc
  /\ s2ds svc' = s2ds svc /\ streams svc' = streams svc
  /\ FSMState svc' = FSMState svc /\ SvcName svc' = SvcName svc
  /\ (forall n, n ∉ entries.*1 -> r svc' !! n = r svc !! n /\ w svc' !! n = w svc !! n)
  /\ (forall n x, r svc !! n = Some x -> r svc' !! n = Some x)
  /\ (forall n x, w svc !! n = Some x -> w svc' !! n = Some x).
Proof.
  revert svc. induction entries as [|[name stream] rest IH]; intros svc H.
  { injection H as <-. by repeat split. }
  cbn [StartSvc] in H.
  destruct (start_stream svc name stream) as [svc1 [e|]] eqn:H1; [done|].
  apply start_stream_frame in H1
    as (E1 & E2 & E3 & E4 & E5 & E6 & E7 & Hf & Hr & Hw).
  apply IH in H as (F1 & F2 & F3 & F4 & F5 & F6 & F7 & Gf & Gr & Gw).
  split_and!; try congruence.
  - intros n [Hn Hrest]%not_elem_of_cons.
    destruct (Gf n Hrest) as [-> ->]. by apply Hf.
  - eauto.
  - eauto.
Qed.

Lemma StartSvc_entry (entries : list (string * Stream)) (svc svc' : hsvc)
    (name : string) (stream : Stream) :
  StartSvc entries svc = (svc', None) ->
  (name, stream) ∈ entries ->
  (StreamMode stream = Read
   /\ exists h, r svc' !! name = Some (mkIstream name (Name stream) h []))
  \/ (StreamMode stream = Write
      /\ exists h, w svc' !! name = Some (mkOstream name (Name stream) h [])).
Proof.
  revert svc. induction entries as [|[n0 s0] rest IH]; intros svc H Hin.
  { by apply elem_of_nil in Hin. }
  cbn [StartSvc] in H.
  destruct (start_stream svc n0 s0) as [svc1 [e|]] eqn:H1; [done|].
  apply elem_of_cons in Hin as [[= <- <-]|Hin]; [|by eapply IH].
  apply StartSvc_frame in H as (_ & _ & _ & _ & _ & _ & _ & _ & Gr & Gw).
  apply start_stream_ok in H1 as [(Hm & _ & h & ->)|(Hm & _ & h & ->)].
  - left. split; [done|]. exists h. apply Gr. cbn. by rewrite lookup_insert_eq.
  - right. split; [done|]. exists h. apply Gw. cbn. by rewrite lookup_insert_eq.
Qed.

(** X17.  When [StartSvc] returns without error, every declared stream is a
    read or a write stream and is open under its name, on the file it names
    and with no object yet; the streams of other names, the histograms, the
    declarations and the state are as they were. *)
Theorem StartSvc_opens (entries : list (string * Stream)) (svc svc' : hsvc) :
  entries ≡ₚ map_to_list (streams svc) ->
  StartSvc entries svc = (svc', None) ->
  (forall name stream,
     streams svc !! name = Some stream ->
     (StreamMode stream = Read
      /\ exists h, r svc' !! name = Some (mkIstream name (Name stream) h []))
     \/ (StreamMode stream = Write
         /\ exists h, w svc' !! name = Some (mkOstream name (Name stream) h [])))
  /\ (forall name,
        streams svc !! name = None ->
        r svc' !! name = r svc !! name /\ w svc' !! name = w svc !! name)
  /\ h1ds svc' = h1ds svc /\ h2ds svc' = h2ds svc /\ p1ds svc' = p1ds svc
  /\ s2ds svc' = s2ds svc /\ streams svc' = streams svc
  /\ FSMState svc' = FSMState svc /\ SvcName svc' = SvcName svc.
Proof.
  intros Hperm H. split; [|split].
  - intros name stream Hs. eapply StartSvc_entry; [done|].
    rewrite Hperm. by apply elem_of_map_to_list.
  - intros name Hs.
    apply StartSvc_frame in H as (_ & _ & _ & _ & _ & _ & _ & Gf & _).
    apply Gf. rewrite Hperm. intros ([n s] & -> & Hin)%list_elem_of_fmap.
    apply elem_of_map_to_list in Hin. cbn in Hs. congruence.
  - by apply StartSvc_frame in H as (? & ? & ? & ? & ? & ? & ? & _).
Qed.

(** X18.  [StartSvc] cannot be run twice: once it has opened the streams, a
    second run fails on the first stream it visits, whichever that is, with
    the duplicate-stream error, and changes nothing. *)
Theorem StartSvc_twice (entries rest : list (string * Stream))
    (svc svc' : hsvc) (name : string) (stream : Stream) :
  StartSvc entries svc = (svc', None) ->
  (name, stream) ∈ entries ->
  StartSvc ((name, stream) :: rest) svc'
  = (svc', Some (match StreamMode stream with
                 | Read => ErrDupRead (SvcName svc) name
                 | _ => ErrDupWrite (SvcName svc) name
                 end)).
Proof.
  intros H Hin.
  pose proof (StartSvc_frame _ _ _ H) as (_ & _ & _ & _ & _ & _ & Hn & _).
  destruct (StartSvc_entry _ _ _ _ _ H Hin) as [(Hm & h & Hr)|(Hm & h & Hw)];
    cbn [StartSvc]; unfold start_stream; rewrite Hm.
  - by rewrite Hr, Hn.
  - by rewrite Hw, Hn.
Qed.

Lemma StartSvc_app (l1 l2 : list (string * Stream)) (svc : hsvc) :
  StartSvc (l1 ++ l2) svc
  = match StartSvc l1 svc with
    | (svc1, None) => StartSvc l2 svc1
    | (svc1, Some e) => (svc1, Some e)
    end.
Proof.
  revert svc. induction l1 as [|[n s] l1 IH]; intros svc; [done|].
  cbn [app StartSvc]. by destruct (start_stream svc n s) as [svc1 [e|]].
Qed.

(** X19.  The first error ends [StartSvc] and nothing is undone: the streams
    visited before the failing one stay open, the ones after it are not
    visited. *)
Theorem StartSvc_no_rollback (l1 rest : list (string * Stream))
    (svc svc1 svc2 : hsvc) (name : string) (stream : Stream) (e : serror) :
  StartSvc l1 svc = (svc1, None) ->
  start_stream svc1 name stream = (svc2, Some e) ->
  StartSvc (l1 ++ (name, stream) :: rest) svc = (svc1, Some e)
  /\ forall n s, (n, s) ∈ l1 -> is_Some (r svc1 !! n) \/ is_Some (w svc1 !! n).
Proof.
  intros H1 H2. split.
  - rewrite StartSvc_app, H1. cbn [StartSvc]. rewrite H2.
    by apply start_stream_error in H2 as ->.
  - intros n s Hin.
    destruct (StartSvc_entry _ _ _ _ _ H1 Hin) as [(_ & h & ->)|(_ & h & ->)];
      eauto.
Qed.

Lemma stop_writers_errs (ws : list (string * ostream)) :
  (stop_writers ws).2 = []
  <-> forall n o, (n, o) ∈ ws -> ostream_write o = None /\ ostream_close o = None.
Proof.
  induction ws as [|[n o] ws IH]; cbn [stop_writers].
  { split; [|done]. intros _ n o Hin. by apply elem_of_nil in Hin. }
  destruct (stop_writers ws) as [calls errs]. cbn [snd] in *.
  split.
  - intros Hnil n' o' [[= -> ->]|Hin]%elem_of_cons.
    + destruct (ostream_write o), (ostream_close o); done.
    + apply app_eq_nil in Hnil as [_ [_ Herrs]%app_eq_nil].
      by apply (proj1 IH Herrs n').
  - intros Hall. destruct (Hall n o) as [-> ->]; [left|]. cbn.
    apply IH. intros n' o' Hin. apply (Hall n'). by right.
Qed.

Lemma stop_readers_errs (rs : list (string * istream)) :
  (stop_readers rs).2 = []
  <-> forall n i, (n, i) ∈ rs -> istream_close i = None.
Proof.
  induction rs as [|[n i] rs IH]; cbn [stop_readers].
  { split; [|done]. intros _ n i Hin. by apply elem_of_nil in Hin. }
  destruct (stop_readers rs) as [calls errs]. cbn [snd] in *.
  split.
  - intros Hnil n' i' [[= -> ->]|Hin]%elem_of_cons.
    + by destruct (istream_close i).
    + apply app_eq_nil in Hnil as [_ Herrs]. by apply (proj1 IH Herrs n').
  - intros Hall. rewrite (Hall n i) by left. cbn.
    apply IH. intros n' i' Hin. apply (Hall n'). by right.
Qed.

Lemma stop_writers_calls (ws : list (string * ostream)) :
  (stop_writers ws).1 = ws ≫= (fun p => [CallWrite p.1; CallCloseW p.1]).
Proof.
  induction ws as [|[n o] ws IH]; [done|]. cbn [stop_writers].
  destruct (stop_writers ws) as [calls errs]. cbn in *. by rewrite IH.
Qed.

Lemma stop_readers_calls (rs : list (string * istream)) :
  (stop_readers rs).1 = (fun p => CallCloseR p.1) <$> rs.
Proof.
  induction rs as [|[n o] rs IH]; [done|]. cbn [stop_readers].
  destruct (stop_readers rs) as [calls errs]. cbn in *. by rewrite IH.
Qed.

(** X20.  [StopSvc] flushes and closes every write stream and closes every
    read stream, whatever fails on the way, and reports no error exactly when
    every one of these calls succeeded. *)
Theorem StopSvc_all_streams (ws : list (string * ostream))
    (rs : list (string * istream)) :
  (StopSvc ws rs).1
  = (ws ≫= (fun p => [CallWrite p.1; CallCloseW p.1]))
    ++ ((fun p => CallCloseR p.1) <$> rs)
  /\ ((StopSvc ws rs).2 = None
      <-> (forall n o, (n, o) ∈ ws ->
             ostream_write o = None /\ ostream_close o = None)
          /\ (forall n i, (n, i) ∈ rs -> istream_close i = None)).
Proof.
  unfold StopSvc.
  pose proof (stop_writers_errs ws) as Hw.
  pose proof (stop_readers_errs rs) as Hr.
  pose proof (stop_writers_calls ws) as Cw.
  pose proof (stop_readers_calls rs) as Cr.
  destruct (stop_writers ws) as [wc we], (stop_readers rs) as [rc re].
  cbn [fst snd] in *. split; [by rewrite Cw, Cr|].
  rewrite <- Hw, <- Hr. rewrite head_None. split.
  - by intros [-> ->]%app_eq_nil.
  - by intros [-> ->].
Qed.

(** Where a booking of [BookH1D] that succeeds leaves the histogram. *)
Lemma BookH1D_h1ds (svc svc' : hsvc) (name : string) (nbins : Z)
    (low high : float64) (h : H1D) :
  BookH1D svc name nbins low high = Ret (svc', h, None) ->
  is_Some (Hist1 h) /\ h1ds svc' = <[H1D_ID h := h]> (h1ds svc).
Proof.
  intros H.
  apply BookH1D_ok in H
    as (_ & stream & hid & hist0 & hist & svc1 & _ & _ & -> & Hon & ->).
  split; [by eexists|].
  apply on_stream_ok in Hon
    as [(_ & -> & _)|(_ & str & _ & [(_ & rs & _ & ->)|(_ & _ & ws & _ & ->)])];
    done.
Qed.

(** X21.  After a booking of [BookH1D] that succeeded, filling under the name
    of the histogram reaches the histogram that was booked, and filling under
    any other name does what it did before the booking. *)
Theorem fill_after_booking (svc svc' : hsvc) (name : string) (nbins : Z)
    (low high x wt : float64) (h : H1D) :
  BookH1D svc name nbins low high = Ret (svc', h, None) ->
  (exists hist, Hist1 h = Some hist
     /\ FillH1D svc' (H1D_ID h) x wt = fillH1D hist x wt)
  /\ (forall id, id <> H1D_ID h -> FillH1D svc' id x wt = FillH1D svc id x wt).
Proof.
  intros H. apply BookH1D_h1ds in H as [[hist Hh] H1].
  unfold FillH1D. rewrite H1. split.
  - exists hist. split; [done|]. by rewrite lookup_insert_eq, Hh.
  - intros id Hne. by rewrite lookup_insert_ne.
Qed.

(** X22.  After [StartSvc], a booking on a declared write stream, in a state
    that allows booking, goes through: the histogram is registered and is the
    one object more of the stream. *)
Theorem booking_after_start (entries : list (string * Stream))
    (svc0 svc : hsvc) (name stream hid : string) (nbins : Z)
    (low high : float64) (hist : hbookH1D) (str : Stream) :
  entries ≡ₚ map_to_list (streams svc0) ->
  StartSvc entries svc0 = (svc, None) ->
  Configured < FSMState svc < Running ->
  split name = Ret (stream, hid) ->
  stream <> EmptyString ->
  streams svc0 !! ("/" +:+ stream)%string = Some str ->
  StreamMode str = Write ->
  NewH1D nbins low high = Ret hist ->
  exists (svc' : hsvc) (ws : ostream),
    let h := mkH1D hid (Some (annotH1D hist "name" (fullname stream hid))) in
    BookH1D svc name nbins low high = Ret (svc', h, None)
    /\ h1ds svc' !! hid = Some h
    /\ w svc !! ("/" +:+ stream)%string = Some ws
    /\ w svc' !! ("/" +:+ stream)%string
       = Some (mkOstream (o_name ws) (o_fname ws) (o_w ws) (o_objs ws ++ [ObjH1D h])).
Proof.
  intros Hperm Hstart [Hc Hr] Hsplit Hne Hstr Hmode Hnew.
  pose proof (StartSvc_frame _ _ _ Hstart) as (_ & _ & _ & _ & Hs & _).
  assert ((("/" +:+ stream)%string, str) ∈ entries) as Hin
    by (rewrite Hperm; by apply elem_of_map_to_list).
  destruct (StartSvc_entry _ _ _ _ _ Hstart Hin) as [(Hm & _)|(_ & hd & Hw)];
    [congruence|].
  eexists _, _. cbn zeta.
  unfold BookH1D, can_book. rewrite !bool_decide_eq_true_2 by done. cbn.
  rewrite Hsplit. cbn. rewrite Hnew. cbn. unfold on_stream.
  rewrite decide_False by done. rewrite Hs, Hstr, Hmode, Hw. cbn.
  split; [reflexivity|]. cbn. rewrite !lookup_insert_eq. done.
Qed.

End lifecycle_facts.

(** The examples in the comment of [split]. *)
Example split_examples :
  split "/my-stream/histo" = Ret ("my-stream", "histo")
  /\ split "my-stream/histo" = Ret ("my-stream", "histo")
  /\ split "my-stream/histo/" = Ret ("my-stream", "histo")
  /\ split "/histo" = Ret (EmptyString, "histo")
  /\ split "histo" = Ret (EmptyString, "histo").
Proof. repeat split. Qed.

Lemma Split_cons (s : string) (sep : Ascii.ascii) :
  exists (w : string) (ws : list string), Split s sep = w :: ws.
Proof.
  induction s as [|ch s (w & ws & IH)]; cbn; [by eauto|].
  destruct (decide (ch = sep)); [by eauto|]. rewrite IH. eauto.
Qed.

(** X14.  [split] returns for every name: the case it calls "impossible"
    is never reached. *)
Theorem split_total (n : string) :
  exists stream hid : string, split n = Ret (stream, hid).
Proof.
  unfold split.
  destruct (Split_cons (TrimSuffix (TrimPrefix n "/") "/") slash)
    as (w & ws & ->).
  destruct ws as [|b [|c ws]]; eauto.
Qed.

Lemma Join_Split (s : string) (sep : Ascii.ascii) :
  Join (Split s sep) (String sep EmptyString) = s.
Proof.
  unfold Join. induction s as [|ch s IH]; cbn; [done|].
  destruct (Split_cons s sep) as (w & ws & Hs). rewrite Hs in *.
  destruct (decide (ch = sep)) as [->|_].
  - cbn. cbn in IH. by rewrite IH.
  - destruct ws as [|w' ws]; cbn in *; by rewrite <- IH.
Qed.

(** X15.  When [split] finds a stream name, [fullname] puts the two parts
    together again: the result is the booking name without the slash it
    may start and the slash it may end with. *)
Theorem fullname_split (n stream hid : string) :
  split n = Ret (stream, hid) ->
  stream <> EmptyString ->
  fullname stream hid = TrimSuffix (TrimPrefix n "/") "/".
Proof.
  unfold split, fullname. intros Hsplit Hne.
  pose proof (Join_Split (TrimSuffix (TrimPrefix n "/") "/") slash) as HJ.
  destruct (Split _ slash) as [|a [|b [|c rest]]]; [done|..].
  - injection Hsplit as <- <-. done.
  - injection Hsplit as <- <-. rewrite decide_False by done. exact HJ.
  - injection Hsplit as <- <-. rewrite decide_False by done. exact HJ.
Qed.

Lemma last_char_slash (s : string) :
  bool_decide (String.substring (String.length s - 1) 1 s = "/")
  = ends_slash s.
Proof.
  induction s as [|c rest IH]; [done|].
  destruct rest as [|c' r'].
  - cbn. apply bool_decide_ext. split; [by intros [= ->]|by intros ->].
  - change (ends_slash (String c (String c' r')))
      with (ends_slash (String c' r')).
    rewrite <- IH. cbn [String.length].
    replace (S (S (String.length r')) - 1)%nat
      with (S (String.length r')) by lia.
    replace (S (String.length r') - 1)%nat with (String.length r') by lia.
    reflexivity.
Qed.

Lemma HasSuffix_ends_slash (s : string) : HasSuffix s "/" = ends_slash s.
Proof.
  unfold HasSuffix. change (String.length "/") with 1%nat.
  rewrite last_char_slash. destruct s as [|c rest]; [done|].
  rewrite bool_decide_eq_true_2 by (cbn; lia). done.
Qed.

Lemma ends_slash_app (a b : string) :
  b <> EmptyString -> ends_slash (a +:+ b) = ends_slash b.
Proof.
  intros Hb. induction a as [|c a IH]; [done|].
  rewrite <- IH.
  change (String c a +:+ b)%string with (String c (a +:+ b)).
  destruct (a +:+ b)%string eqn:Hab; [|done].
  destruct a; [by cbn in Hab|done].
Qed.

Lemma Split_no_sep (a b : string) (sep : Ascii.ascii) :
  Contains a sep = false ->
  Split (a +:+ String sep b) sep = a :: Split b sep.
Proof.
  induction a as [|c a IH]; intros Hc.
  - change (Split (String sep b) sep = EmptyString :: Split b sep).
    cbn [Split]. by rewrite decide_True.
  - change (Split (String c (a +:+ String sep b)) sep
            = String c a :: Split b sep).
    cbn [Contains] in Hc. apply orb_false_elim in Hc as [Hc Ha].
    apply bool_decide_eq_false in Hc.
    cbn [Split]. rewrite decide_False by done.
    by rewrite IH.
Qed.

(** X16.  [split] undoes [fullname]: for a stream name without a slash and
    a histogram name that does not end with one, neither empty, splitting
    the full name gives the two back. *)
Theorem split_fullname (stream hid : string) :
  stream <> EmptyString ->
  Contains stream slash = false ->
  hid <> EmptyString ->
  HasSuffix hid "/" = false ->
  split (fullname stream hid) = Ret (stream, hid).
Proof.
  intros Hs Hc Hh He. rewrite HasSuffix_ends_slash in He.
  unfold fullname, split.
  rewrite decide_False by done.
  assert (TrimPrefix (stream +:+ "/" +:+ hid) "/" = stream +:+ "/" +:+ hid)%string
    as ->.
  { unfold TrimPrefix. destruct stream as [|c st]; [done|].
    cbn in Hc. apply orb_false_elim in Hc as [Hc _].
    apply bool_decide_eq_false in Hc.
    change (String c st +:+ "/" +:+ hid)%string
      with (String c (st +:+ "/" +:+ hid)).
    cbn [String.prefix].
    destruct (Ascii.ascii_dec _ c) as [Heq|]; [|done].
    by destruct Hc. }
  assert (TrimSuffix (stream +:+ "/" +:+ hid) "/" = stream +:+ "/" +:+ hid)%string
    as ->.
  { unfold TrimSuffix. rewrite HasSuffix_ends_slash.
    rewrite ends_slash_app by done.
    change ("/" +:+ hid)%string with (String slash EmptyString +:+ hid)%string.
    by rewrite ends_slash_app, He. }
  change ("/" +:+ hid)%string with (String slash hid).
  rewrite Split_no_sep by done.
  pose proof (Join_Split hid slash) as HJ.
  destruct (Split hid slash) as [|w [|w2 ws]] eqn:HS.
  - by destruct (Split_cons hid slash) as (? & ? & ?).
  - cbn in HJ. by rewrite HJ.
  - cbn [Split]. do 2 f_equal. exact HJ.
Qed.

(** The stream "my-stream" and the histogram "dir/histo". *)
Lemma split_fullname_witness :
  split (fullname "my-stream" "dir/histo") = Ret ("my-stream", "dir/histo").
Proof.
  exact (split_fullname "my-stream" "dir/histo"
           ltac:(discriminate) eq_refl ltac:(discriminate) eq_refl).
Defined.

(** A stream, a directory and a histogram. *)
Lemma fullname_split_witness :
  fullname "my-stream" "dir/histo"
  = TrimSuffix (TrimPrefix "/my-stream/dir/histo/" "/") "/".
Proof.
  exact (fullname_split "/my-stream/dir/histo/" "my-stream" "dir/histo"
           eq_refl ltac:(discriminate)).
Defined.

#[local] Existing Instance demo_ext.

(** In state 5, [Running], nothing is booked. *)
Lemma booking_needs_state_witness :
  BookH1D (demo_svc 5) "/out/h1" 10 0 1
  = Ret (demo_svc 5, mkH1D EmptyString None, Some (ErrFSMState 5))
  /\ BookH2D (demo_svc 5) "/out/h1" 10 0 1 10 0 1
     = Ret (demo_svc 5, mkH2D EmptyString None, Some (ErrFSMState 5))
  /\ BookP1D (demo_svc 5) "/out/h1" 10 0 1
     = Ret (demo_svc 5, mkP1D EmptyString None, Some (ErrFSMState 5))
  /\ BookS2D (demo_svc 5) "/out/h1"
     = Ret (demo_svc 5, mkS2D EmptyString None, Some (ErrFSMState 5)).
Proof.
  apply (booking_needs_state (E := demo_ext) (demo_svc 5) "/out/h1"
           10 10 10 0 1 0 1 0 1).
  cbn. lia.
Defined.

(** No stream "/tmp" is declared. *)
Lemma booking_undeclared_stream_witness :
  BookH1D (demo_svc 3) "/tmp/h1" 10 0 1
  = Ret (demo_svc 3, mkH1D "h1" (Some [("name", "tmp/h1")]),
         Some (ErrNoStream "/tmp")).
Proof.
  refine (booking_undeclared_stream (E := demo_ext) (demo_svc 3) "/tmp/h1"
            "tmp" "h1" 10 0 1 [] _ eq_refl _ eq_refl eq_refl).
  - cbn. lia.
  - discriminate.
Defined.

(** The histogram "h1", kept in memory only. *)
Lemma booking_temporary_witness :
  BookH1D (demo_svc 3) "h1" 10 0 1
  = Ret (set_h1ds
           (<["h1" := mkH1D "h1" (Some [("name", "h1")])]> (h1ds (demo_svc 3)))
           (demo_svc 3),
         mkH1D "h1" (Some [("name", "h1")]), None).
Proof.
  refine (booking_temporary (E := demo_ext) (demo_svc 3) "h1" "h1" 10 0 1 []
            _ eq_refl eq_refl).
  cbn. lia.
Defined.

(** In state 3 (after [Configured], before [Running]) the same call books
    the histogram: it is registered under its name and handed to the
    stream. *)
Example booking_in_state :
  exists svc' : @hsvc demo_ext,
    BookH1D (demo_svc 3) "/out/h1" 10 0 1
    = Ret (svc', mkH1D "h1" (Some [("name", "out/h1")]), None)
    /\ h1ds svc' !! "h1" = Some (mkH1D "h1" (Some [("name", "out/h1")]))
    /\ (o_objs <$> w svc' !! "/out")
       = Some [ObjH1D (mkH1D "h1" (Some [("name", "out/h1")]))].
Proof. eexists. split; [reflexivity|]. split; reflexivity. Qed.

#[local] Existing Instance demo_io.

(** No stream "/tmp" is declared: the booking fails. *)
Lemma booking_error_untouched_witness :
  BookH1D (demo_svc 3) "/tmp/h1" 10 0 1
  = Ret (demo_svc 3, mkH1D "h1" (Some [("name", "tmp/h1")]),
         Some (ErrNoStream "/tmp"))
  /\ demo_svc 3 = demo_svc 3.
Proof.
  split; [reflexivity|].
  exact (proj1 (booking_error_untouched (E := demo_ext) (demo_svc 3) "/tmp/h1"
                  10 10 10 0 1 0 1 0 1) _ _ _ eq_refl).
Defined.

(** The histogram "h1" on the write stream "/out". *)
Lemma booking_registers_witness :
  Configured < FSMState (demo_svc 3) < Running
  /\ (exists stream : string, split "/out/h1" = Ret (stream, H1D_ID demo_h1))
  /\ is_Some (Hist1 demo_h1)
  /\ h1ds booked_svc = <[H1D_ID demo_h1 := demo_h1]> (h1ds (demo_svc 3))
  /\ h2ds booked_svc = h2ds (demo_svc 3)
  /\ p1ds booked_svc = p1ds (demo_svc 3)
  /\ s2ds booked_svc = s2ds (demo_svc 3)
  /\ streams booked_svc = streams (demo_svc 3)
  /\ FSMState booked_svc = FSMState (demo_svc 3)
  /\ SvcName booked_svc = SvcName (demo_svc 3).
Proof.
  exact (booking_registers (E := demo_ext) (demo_svc 3) booked_svc "/out/h1"
           10 0 1 demo_h1 eq_refl).
Defined.

(** The stream "/out" gets the histogram "h1" as its first object. *)
Lemma booking_on_write_stream_witness :
  r booked_svc = r (demo_svc 3)
  /\ exists ws : ostream,
       w (demo_svc 3) !! "/out" = Some ws
       /\ w booked_svc
          = <["/out" := mkOstream (o_name ws) (o_fname ws) (o_w ws)
                          (o_objs ws ++ [ObjH1D demo_h1])]> (w (demo_svc 3)).
Proof.
  exact (booking_on_write_stream (E := demo_ext) (demo_svc 3) booked_svc
           "/out/h1" "out" "h1" 10 0 1 demo_h1 (mkStream "out.rio" Write)
           eq_refl eq_refl ltac:(discriminate) eq_refl eq_refl).
Defined.

(** "h1" booked on the stream "/out", then "h1" booked in memory. *)
Lemma booking_same_name_witness :
  h1ds rebooked_svc !! "h1" = Some demo_h1'
  /\ (forall id, id <> "h1" -> h1ds rebooked_svc !! id = h1ds (demo_svc 3) !! id).
Proof.
  exact (booking_same_name (E := demo_ext) (demo_svc 3) booked_svc rebooked_svc
           "/out/h1" "h1" 10 10 0 1 0 1 demo_h1 demo_h1'
           eq_refl eq_refl eq_refl).
Defined.

(** A read stream and a write stream. *)
Lemma StartSvc_opens_witness :
  (forall name stream,
     demo_streams !! name = Some stream ->
     (StreamMode stream = Read
      /\ exists h, r (started_svc 1) !! name
                   = Some (mkIstream name (Name stream) h []))
     \/ (StreamMode stream = Write
         /\ exists h, w (started_svc 1) !! name
                      = Some (mkOstream name (Name stream) h [])))
  /\ (forall name,
        demo_streams !! name = None ->
        r (started_svc 1) !! name = (∅ : gmap string istream) !! name
        /\ w (started_svc 1) !! name = (∅ : gmap string ostream) !! name)
  /\ h1ds (started_svc 1) = ∅ /\ h2ds (started_svc 1) = ∅
  /\ p1ds (started_svc 1) = ∅ /\ s2ds (started_svc 1) = ∅
  /\ streams (started_svc 1) = demo_streams
  /\ FSMState (started_svc 1) = 1 /\ SvcName (started_svc 1) = "hsvc".
Proof.
  exact (StartSvc_opens (IO := demo_io) two_streams (new_svc 1 demo_streams)
           (started_svc 1) (perm_swap _ _ []) eq_refl).
Defined.

(** Started, then started again with the write stream first. *)
Lemma StartSvc_twice_witness :
  StartSvc [("/out", mkStream "out.rio" Write); ("/in", mkStream "in.rio" Read)]
    (started_svc 1)
  = (started_svc 1, Some (ErrDupWrite "hsvc" "/out")).
Proof.
  exact (StartSvc_twice (IO := demo_io) two_streams
           [("/in", mkStream "in.rio" Read)]
           (new_svc 1 demo_streams) (started_svc 1)
           "/out" (mkStream "out.rio" Write) eq_refl
           ltac:(apply list_elem_of_further, list_elem_of_here)).
Defined.

(** A stream of mode 7 after a read stream. *)
Lemma StartSvc_no_rollback_witness :
  StartSvc ([("/in", mkStream "in.rio" Read)]
            ++ ("/odd", mkStream "odd.rio" (OtherMode 7))
            :: [("/out", mkStream "out.rio" Write)])
    (new_svc 1 ∅)
  = (set_r {["/in" := @mkIstream demo_ext "/in" "in.rio" () []]} (new_svc 1 ∅),
     Some (ErrInvalidMode "hsvc" (OtherMode 7)))
  /\ forall n s,
       (n, s) ∈ [("/in", mkStream "in.rio" Read)] ->
       is_Some (r (set_r {["/in" := @mkIstream demo_ext "/in" "in.rio" () []]}
                     (new_svc 1 ∅)) !! n)
       \/ is_Some (w (set_r {["/in" := @mkIstream demo_ext "/in" "in.rio" () []]}
                        (new_svc 1 ∅)) !! n).
Proof.
  exact (StartSvc_no_rollback (IO := demo_io) [("/in", mkStream "in.rio" Read)]
           [("/out", mkStream "out.rio" Write)] (new_svc 1 ∅) _ _
           "/odd" (mkStream "odd.rio" (OtherMode 7)) _ eq_refl eq_refl).
Defined.

(** The histogram "h1" of the stream "/out", filled once. *)
Lemma fill_after_booking_witness :
  (exists hist, Hist1 demo_h1 = Some hist
     /\ FillH1D booked_svc (H1D_ID demo_h1) 2 1 = fillH1D hist 2 1)
  /\ (forall id, id <> H1D_ID demo_h1 ->
        FillH1D booked_svc id 2 1 = FillH1D (demo_svc 3) id 2 1).
Proof.
  exact (fill_after_booking (IO := demo_io) (demo_svc 3) booked_svc "/out/h1"
           10 0 1 2 1 demo_h1 eq_refl).
Defined.

(** Started with two streams, then "h1" booked on the write stream. *)
Lemma booking_after_start_witness :
  exists (svc' : hsvc) (ws : ostream),
    let h := mkH1D "h1" (Some (annotH1D [] "name" (fullname "out" "h1"))) in
    BookH1D (started_svc 3) "/out/h1" 10 0 1 = Ret (svc', h, None)
    /\ h1ds svc' !! "h1" = Some h
    /\ w (started_svc 3) !! "/out" = Some ws
    /\ w svc' !! "/out"
       = Some (mkOstream (o_name ws) (o_fname ws) (o_w ws)
                 (o_objs ws ++ [ObjH1D h])).
Proof.
  refine (booking_after_start (IO := demo_io) two_streams
            (new_svc 3 demo_streams) (started_svc 3) "/out/h1" "out" "h1"
            10 0 1 [] (mkStream "out.rio" Write)
            (perm_swap _ _ []) eq_refl _ eq_refl _ eq_refl eq_refl eq_refl).
  - cbn. lia.
  - discriminate.
Defined.

End hbooksvc_facts.

(** ** The key directory *)

Module riofs_facts.
Import riofs.

Lemma slice_app_l (data more bs : list byte) (off n : Z) :
  slice data off n = Some bs -> slice (data ++ more) off n = Some bs.
Proof.
  unfold slice. intros H.
  destruct (decide (0 <= off /\ 0 <= n /\ off + n <= Z.of_nat (length data)))
    as [(H0 & Hn & Hle)|]; [|done].
  injection H as <-.
  rewrite decide_True by (rewrite length_app; lia).
  f_equal. rewrite drop_app_le by lia.
  rewrite take_app_le; [done|]. rewrite length_drop. lia.
Qed.

Lemma slice_at_end (data hdr block : list byte) :
  slice (data ++ hdr ++ block)
    (Z.of_nat (length data) + Z.of_nat (length hdr))
    (Z.of_nat (length block)) = Some block.
Proof.
  unfold slice. rewrite decide_True by (rewrite !length_app; lia).
  f_equal. rewrite app_assoc.
  replace (Z.to_nat (Z.of_nat (length data) + Z.of_nat (length hdr)))
    with (length (data ++ hdr)) by (rewrite length_app; lia).
  rewrite drop_app_length. rewrite Nat2Z.id. apply firstn_all.
Qed.

Section directory_facts.
Context {Obj : Type} `{C : Codec} `{R : Registry Obj}.

(** The two round trips of section 8 of the specification. *)
Hypothesis codec_round_trip :
  forall payload : list byte, decompress (compress payload) = Some payload.
Hypothesis registry_round_trip :
  forall (v : Obj) (payload : list byte),
    marshal v = Some payload -> unmarshal (class_of v) payload = Some v.

Lemma stored_app (data more : list byte) (k : Key) (v : Obj) :
  stored data k v -> stored (data ++ more) k v.
Proof.
  intros (payload & Hm & Hc & Hl & Hs). exists payload.
  repeat split; try done. by apply slice_app_l.
Qed.

Lemma Get_found (f : File) (n : string) (cyc : option Z) (k : Key) (v : Obj) :
  closed f = false ->
  find_key n cyc (keys f) = Some k ->
  stored (data f) k v ->
  Get f n cyc = inr v.
Proof using codec_round_trip registry_round_trip.
  intros Hopen Hfind (payload & Hm & Hc & Hl & Hs).
  unfold Get, Load. rewrite Hopen, Hfind, Hs, codec_round_trip.
  rewrite decide_True by done. rewrite Hc. by rewrite (registry_round_trip _ _ Hm).
Qed.

(** What a successful [Put] did. *)
Lemma Put_inr (f f' : File) (n : string) (v : Obj) :
  Put f n v = inr f' ->
  closed f = false /\ fmode f = WriteMode
  /\ exists (payload : list byte) (k : Key),
       marshal v = Some payload
       /\ name k = n
       /\ cycle k = 1 + max_cycle n (keys f)
       /\ stored (data f') k v
       /\ keys f' = keys f ++ [k]
       /\ (exists more, data f' = data f ++ more)
       /\ path f' = path f /\ closed f' = false /\ fmode f' = WriteMode.
Proof.
  unfold Put. intros H.
  destruct (closed f) eqn:Hc; [done|].
  destruct (fmode f) eqn:Hm; [done|].
  destruct (marshal v) as [payload|] eqn:Hv; [|done].
  injection H as <-. split; [done|]. split; [done|].
  eexists payload, _. cbn. repeat split; try done.
  - exists payload. cbn. repeat split; try done. apply slice_at_end.
  - eauto.
Qed.

Lemma Put_ok (f : File) (n : string) (v : Obj) :
  closed f = false -> fmode f = WriteMode -> is_Some (marshal v) ->
  exists f' : File, Put f n v = inr f'.
Proof.
  intros Hc Hm [payload Hv]. unfold Put. rewrite Hc, Hm, Hv. eauto.
Qed.

Lemma max_cycle_nonneg (n : string) (ks : list Key) : 0 <= max_cycle n ks.
Proof.
  unfold max_cycle. induction ks as [|k ks IH]; cbn; [done|].
  destruct (decide (name k = n)); lia.
Qed.

Lemma max_cycle_ge (n : string) (ks : list Key) (k : Key) :
  k ∈ ks -> name k = n -> cycle k <= max_cycle n ks.
Proof.
  unfold max_cycle.
  induction 1 as [k ks|k k' ks Hin IH]; intros Hn; cbn.
  - rewrite decide_True by done. lia.
  - specialize (IH Hn). destruct (decide (name k' = n)); lia.
Qed.

Lemma max_cycle_snoc (n : string) (ks : list Key) (k : Key) :
  max_cycle n (ks ++ [k]) =
  Z.max (max_cycle n ks) (if decide (name k = n) then Z.max (cycle k) 0 else 0).
Proof.
  unfold max_cycle. induction ks as [|k' ks IH]; cbn.
  - destruct (decide (name k = n)); lia.
  - rewrite IH. destruct (decide (name k' = n)); lia.
Qed.

Lemma max_cycle_fresh (n : string) (ks : list Key) :
  n ∉ name <$> ks -> max_cycle n ks = 0.
Proof.
  unfold max_cycle. induction ks as [|k ks IH]; cbn; [done|]. intros Hnin.
  apply not_elem_of_cons in Hnin as [Hne Hnin].
  rewrite decide_False by done. by apply IH.
Qed.

Lemma find_key_snoc_miss (n : string) (c : Z) (ks : list Key) (k : Key) :
  (forall k', k' ∈ ks -> name k' = n -> cycle k' <> c) ->
  name k = n -> cycle k = c ->
  find (fun k => bool_decide (name k = n /\ cycle k = c)) (ks ++ [k]) = Some k.
Proof.
  intros Hmiss Hn Hc. induction ks as [|k' ks IH]; cbn.
  - by rewrite bool_decide_eq_true_2.
  - rewrite bool_decide_eq_false_2.
    + apply IH. intros k'' Hin. apply Hmiss. by right.
    + intros [Hn' Hc']. by apply (Hmiss k'); [left|..].
Qed.

Lemma find_app_l {A} (P : A -> bool) (l l' : list A) (x : A) :
  find P l = Some x -> find P (l ++ l') = Some x.
Proof.
  induction l as [|a l IH]; cbn; [done|]. destruct (P a); [done|apply IH].
Qed.

(** C8.  Two [Put]s under one name: each new key gets the cycle
    [1 + max_cycle] of the keys of that name, so the second is one above
    the first (1 then 2 for a name the file had no key for); [Get] without
    a cycle returns the second object, [Get] with the first cycle the
    first. *)
Theorem put_twice_cycles (f0 f1 f2 : File) (n : string) (v1 v2 : Obj) :
  Put f0 n v1 = inr f1 ->
  Put f1 n v2 = inr f2 ->
  exists k1 k2 : Key,
    Keys f2 = Keys f0 ++ [k1; k2]
    /\ name k1 = n /\ cycle k1 = 1 + max_cycle n (Keys f0)
    /\ name k2 = n /\ cycle k2 = 1 + max_cycle n (Keys f1)
    /\ cycle k2 = cycle k1 + 1
    /\ (n ∉ name <$> Keys f0 -> cycle k1 = 1 /\ cycle k2 = 2)
    /\ Get f2 n None = inr v2
    /\ Get f2 n (Some (cycle k1)) = inr v1.
Proof using codec_round_trip registry_round_trip.
  intros H1 H2. unfold Keys.
  apply Put_inr in H1
    as (_ & _ & p1 & k1 & _ & Hn1 & Hc1 & Hs1 & Hk1 & _ & _ & _ & _).
  apply Put_inr in H2
    as (_ & _ & p2 & k2 & _ & Hn2 & Hc2 & Hs2 & Hk2 & [more Hd2] & _ & Ho2 & _).
  pose proof (max_cycle_nonneg n (keys f0)) as Hnn.
  assert (max_cycle n (keys f1) = 1 + max_cycle n (keys f0)) as Hm1.
  { rewrite Hk1, max_cycle_snoc, decide_True by done. lia. }
  assert (max_cycle n (keys f2) = cycle k2) as Hm2.
  { rewrite Hk2, max_cycle_snoc, decide_True by done. lia. }
  exists k1, k2. split; [by rewrite Hk2, Hk1, <- app_assoc|].
  split; [done|]. split; [done|]. split; [done|]. split; [done|].
  split; [lia|]. split.
  { intros Hfresh. rewrite (max_cycle_fresh _ _ Hfresh) in *. lia. }
  split.
  - apply (Get_found f2 n None k2); [done| |done].
    unfold find_key. rewrite Hm2, Hk2.
    apply find_key_snoc_miss; [|done..].
    intros k' Hin Hn'. pose proof (max_cycle_ge n _ k' Hin Hn'). lia.
  - apply (Get_found f2 n (Some (cycle k1)) k1); [done| |].
    + unfold find_key. rewrite Hk2. apply find_app_l. rewrite Hk1.
      apply find_key_snoc_miss; [|done..].
      intros k' Hin Hn'. pose proof (max_cycle_ge n _ k' Hin Hn'). lia.
    + rewrite Hd2. by apply stored_app.
Qed.

Lemma holds_names (f : File) (ps : list (string * Obj)) :
  holds f ps -> name <$> keys f = ps.*1.
Proof.
  unfold holds. induction 1 as [|k p ks ps' (Hn & _ & _) _ IH]; [done|].
  cbn. by rewrite Hn, IH.
Qed.

Lemma PutAll_holds (f f' : File) (done_ ps : list (string * Obj)) :
  holds f done_ -> closed f = false -> fmode f = WriteMode ->
  NoDup (done_ ++ ps).*1 ->
  PutAll f ps = inr f' ->
  holds f' (done_ ++ ps) /\ path f' = path f /\ closed f' = false
  /\ fmode f' = WriteMode.
Proof.
  revert f done_. induction ps as [|[n v] ps IH]; intros f done_ Hh Hc Hm Hnd Hput.
  - cbn in Hput. injection Hput as <-. by rewrite app_nil_r.
  - cbn in Hput. destruct (Put f n v) as [|f1] eqn:HP; [done|].
    apply Put_inr in HP
      as (_ & _ & p & k & _ & Hn & Hcy & Hs & Hk & [more Hd] & Hp & Hc1 & Hm1).
    replace (done_ ++ (n, v) :: ps) with ((done_ ++ [(n, v)]) ++ ps) in *
      by by rewrite <- app_assoc.
    destruct (IH f1 (done_ ++ [(n, v)])) as (Hh' & Hp' & Hc' & Hm'); try done.
    + unfold holds. rewrite Hk. apply Forall2_app.
      * eapply Forall2_impl; [exact Hh|]. intros k' p' (? & ? & ?).
        repeat split; try done. rewrite Hd. by apply stored_app.
      * constructor; [|constructor]. repeat split; try done.
        rewrite Hcy, max_cycle_fresh; [done|].
        rewrite (holds_names _ _ Hh).
        rewrite !fmap_app in Hnd. apply NoDup_app in Hnd as [Hnd _].
        apply NoDup_app in Hnd as (_ & Hdis & _).
        intros Hin. apply (Hdis n Hin). cbn. by left.
    + split; [done|]. split; [congruence|done].
Qed.

Lemma holds_Get (f : File) (ps : list (string * Obj)) (n : string) (v : Obj) :
  holds f ps -> NoDup ps.*1 -> closed f = false -> (n, v) ∈ ps ->
  Get f n None = inr v.
Proof using codec_round_trip registry_round_trip.
  intros Hh Hnd Hc Hin.
  apply list_elem_of_lookup in Hin as [i Hi].
  destruct (Forall2_lookup_r _ _ _ _ _ Hh Hi) as (k & Hk & Hn & Hcy & Hs).
  cbn in Hn, Hs.
  assert (forall k', k' ∈ keys f -> cycle k' = 1) as Hall.
  { intros k' Hin'. apply list_elem_of_lookup in Hin' as [j Hj].
    destruct (Forall2_lookup_l _ _ _ _ _ Hh Hj) as (p' & _ & _ & ? & _). done. }
  assert (max_cycle n (keys f) = 1) as Hmax.
  { apply Z.le_antisymm.
    - clear -Hall. unfold max_cycle.
      induction (keys f) as [|k' ks IH]; cbn; [lia|].
      assert (cycle k' = 1) by (apply Hall; by left).
      assert (forall k'', k'' ∈ ks -> cycle k'' = 1)
        by (intros; apply Hall; by right).
      specialize (IH ltac:(done)). destruct (decide (name k' = n)); lia.
    - rewrite <- Hcy. apply max_cycle_ge; [|done].
      apply list_elem_of_lookup. eauto. }
  apply (Get_found f n None k); [done| |done].
  unfold find_key. rewrite Hmax.
  destruct (find _ (keys f)) as [k'|] eqn:Hf.
  - apply find_some in Hf as [Hin' HP]. apply bool_decide_eq_true in HP as [Hn' _].
    apply list_elem_of_In, list_elem_of_lookup in Hin' as [j Hj].
    assert (i = j) as ->; [|congruence].
    rewrite <- (holds_names _ _ Hh) in Hnd.
    apply (NoDup_lookup _ i j n Hnd); rewrite list_lookup_fmap.
    + by rewrite Hk; cbn; rewrite Hn.
    + by rewrite Hj; cbn; rewrite Hn'.
  - exfalso. eapply find_none in Hf; [|apply list_elem_of_In, list_elem_of_lookup; eauto].
    cbn in Hf. by rewrite bool_decide_eq_true_2 in Hf.
Qed.

(** C7.  Objects of registered classes put under names that differ from
    one another on a created file: every [Put] succeeds; the file closes;
    the path opens again; the written file and the reopened one list one
    key for each name, in the order of the [Put]s; and [Get] of a name on
    the reopened file returns the object put under it. *)
Theorem put_close_open_get (disk : gmap string Image) (pth : string)
    (ps : list (string * Obj)) :
  NoDup ps.*1 ->
  (forall (n : string) (v : Obj), (n, v) ∈ ps -> is_Some (marshal v)) ->
  exists (w w' r : File) (disk' : gmap string Image),
    PutAll (Create disk pth).2 ps = inr w
    /\ Close (Create disk pth).1 w = inr (disk', w')
    /\ Open disk' pth = inr r
    /\ name <$> Keys w = ps.*1
    /\ name <$> Keys r = ps.*1
    /\ forall (n : string) (v : Obj), (n, v) ∈ ps -> Get r n None = inr v.
Proof using codec_round_trip registry_round_trip.
  intros Hnd Hreg. cbn [Create fst snd].
  assert (forall (f : File) (qs : list (string * Obj)),
            closed f = false -> fmode f = WriteMode ->
            (forall n v, (n, v) ∈ qs -> is_Some (marshal v)) ->
            exists f', PutAll f qs = inr f') as Htotal.
  { intros f qs. revert f. induction qs as [|[n v] qs IH]; intros f Hc Hm Hq.
    - eexists. reflexivity.
    - destruct (Put_ok f n v Hc Hm) as [f1 HP]; [apply (Hq n); by left|].
      cbn. rewrite HP.
      apply Put_inr in HP as (_ & _ & _ & _ & _ & _ & _ & _ & _ & _ & _ & ? & ?).
      apply IH; [done..|]. intros n' v' Hin. apply (Hq n'). by right. }
  destruct (Htotal (mkFile pth WriteMode false [] []) ps) as [w Hw]; [done..|].
  destruct (PutAll_holds (mkFile pth WriteMode false [] []) w [] ps)
    as (Hh & Hp & Hc & Hm); [by constructor|done..|].
  cbn in Hh, Hp.
  exists w, (mkFile (path w) (fmode w) true (data w) (keys w)),
    (mkFile pth ReadMode false (data w) (keys w)),
    (<[pth := mkImage (data w) (keys w)]> (<[pth := mkImage [] []]> disk)).
  split; [done|]. split.
  { unfold Close. by rewrite Hc, Hm, Hp. }
  split.
  { unfold Open. by rewrite lookup_insert_eq. }
  split; [by apply holds_names|]. split; [by apply holds_names|].
  intros n v Hin. by apply (holds_Get _ ps).
Qed.

End directory_facts.

#[local] Existing Instance store_codec.
#[local] Existing Instance demo_registry.

(** Two objects put under "key" on a created file: cycles 1 and 2. *)
Lemma put_twice_cycles_witness :
  exists k1 k2 : Key,
    Keys put_twice = Keys created ++ [k1; k2]
    /\ name k1 = "key" /\ cycle k1 = 1 + max_cycle "key" (Keys created)
    /\ name k2 = "key" /\ cycle k2 = 1 + max_cycle "key" (Keys put_once)
    /\ cycle k2 = cycle k1 + 1
    /\ ("key" ∉ name <$> Keys created -> cycle k1 = 1 /\ cycle k2 = 2)
    /\ Get put_twice "key" None = inr world
    /\ Get put_twice "key" (Some (cycle k1)) = inr hello.
Proof.
  refine (put_twice_cycles (fun _ => eq_refl) _ created put_once put_twice
            "key" hello world eq_refl eq_refl).
  intros v payload [= <-]. reflexivity.
Defined.

(** The same, read off the files. *)
Example put_twice_values :
  cycle <$> Keys put_twice = [1; 2]
  /\ Get put_twice "key" None = inr world
  /\ Get put_twice "key" (Some 1) = inr hello
  /\ Get put_twice "key" (Some 2) = inr world
  /\ Get put_twice "key" (Some 3) = inl NotFound
  /\ Get put_twice "other" None = inl NotFound.
Proof. repeat split. Qed.

(** Two keys, named as [TestCreate] names them, written and read back. *)
Lemma put_close_open_get_witness :
  exists (w w' r : File) (disk' : gmap string Image),
    PutAll (Create ∅ "out.root").2 [("key-TAxis-00", hello); ("key-TAxis-01", world)]
    = inr w
    /\ Close (Create ∅ "out.root").1 w = inr (disk', w')
    /\ Open disk' "out.root" = inr r
    /\ name <$> Keys w = [("key-TAxis-00", hello); ("key-TAxis-01", world)].*1
    /\ name <$> Keys r = [("key-TAxis-00", hello); ("key-TAxis-01", world)].*1
    /\ forall (n : string) (v : list byte),
         (n, v) ∈ [("key-TAxis-00", hello); ("key-TAxis-01", world)] ->
         Get r n None = inr v.
Proof.
  refine (put_close_open_get (fun _ => eq_refl) _ ∅ "out.root"
            [("key-TAxis-00", hello); ("key-TAxis-01", world)] _ _).
  - intros v payload [= <-]. reflexivity.
  - cbn. apply NoDup_cons. split; [|apply NoDup_singleton].
    intros Hin. apply list_elem_of_singleton in Hin. discriminate Hin.
  - intros n v _. by eexists.
Defined.

End riofs_facts.
